(** * Multi-constraint agentic search: decomposition, relevance and
      answer normalisation, embedded from [clean.py], [extract.py] and
      [mian.py].

    Python [str] values are sequences of Unicode code points, so a string
    is a [list N]; [len], slicing and [startswith] are the list operations.
    Code that may raise returns a [result]; the pipeline, which talks to the
    language model, the search provider and the output file, lives in a
    state-and-trace monad over an abstract world. *)

From Stdlib Require Import Ascii String DecimalString.
From Stdlib Require Import List NArith ZArith Bool Lia Sorted.
Import ListNotations.

Set Implicit Arguments.

(** ** Strings *)

Definition char := N.
Definition str := list char.

(** An ASCII literal as a Python string. *)
Definition lit (s : string) : str := map N_of_ascii (list_ascii_of_string s).

Definition ch (a : ascii) : char := N_of_ascii a.

Arguments lit s%_string.
Arguments ch a%_char.

Definition is_empty {A} (l : list A) : bool :=
  match l with [] => true | _ => false end.

Fixpoint str_eqb (a b : str) : bool :=
  match a, b with
  | [], [] => true
  | x :: a', y :: b' => N.eqb x y && str_eqb a' b'
  | _, _ => false
  end.

(** [s.startswith(p)] *)
Fixpoint startswith (s p : str) : bool :=
  match p, s with
  | [], _ => true
  | _ :: _, [] => false
  | y :: p', x :: s' => N.eqb x y && startswith s' p'
  end.

(** [sub in s] for strings: some suffix of [s] starts with [sub]. *)
Fixpoint contains (sub s : str) : bool :=
  startswith s sub ||
  match s with
  | [] => false
  | _ :: s' => contains sub s'
  end.

(** [c in s] for a single character. *)
Definition in_str (c : char) (s : str) : bool := existsb (N.eqb c) s.

Definition in_chars (cs : str) (c : char) : bool := existsb (N.eqb c) cs.

(** ** Exceptions *)

(** [GeneratorError] stands for whatever [generator.generate] raises,
    [PromptError] for whatever [PromptTemplate.get_string] raises. *)
Inductive exn :=
| ValueError | IndexError | GeneratorError
| PromptError | TypeError | UnicodeEncodeError.

Inductive result (A : Type) :=
| Ok (a : A)
| Raise (e : exn).
Arguments Ok {A} a.
Arguments Raise {A} e.

Definition rbind {A B} (r : result A) (k : A -> result B) : result B :=
  match r with
  | Ok a => k a
  | Raise e => Raise e
  end.

Declare Scope result_scope.
Delimit Scope result_scope with result.
Notation "x <- e ;; k" := (rbind e (fun x => k))
  (at level 61, e at next level, right associativity) : result_scope.

(** [s.index(c)]: raises [ValueError] when [c] does not occur. *)
Fixpoint index (c : char) (s : str) : result nat :=
  match s with
  | [] => Raise ValueError
  | x :: s' => if N.eqb x c then Ok 0
               else match index c s' with
                    | Ok i => Ok (S i)
                    | Raise e => Raise e
                    end
  end.

(** [l[i]] for [i >= 0] and [l[-1]]: both raise [IndexError] out of range. *)
Definition getitem {A} (l : list A) (i : nat) : result A :=
  match nth_error l i with
  | Some a => Ok a
  | None => Raise IndexError
  end.

Definition getitem_last {A} (l : list A) : result A :=
  match rev l with
  | a :: _ => Ok a
  | [] => Raise IndexError
  end.

(** ** Whitespace and stripping *)

(** The code points for which [str.isspace] holds; [str.strip()] and the
    regular-expression class [\s] both use them. *)
Definition is_space (c : char) : bool :=
  ((9 <=? c) && (c <=? 13) || (28 <=? c) && (c <=? 32) ||
   (c =? 133) || (c =? 160) || (c =? 5760) ||
   (8192 <=? c) && (c <=? 8202) || (c =? 8232) || (c =? 8233) ||
   (c =? 8239) || (c =? 8287) || (c =? 12288))%N.

Fixpoint lstrip_by (p : char -> bool) (s : str) : str :=
  match s with
  | [] => []
  | c :: s' => if p c then lstrip_by p s' else s
  end.

Fixpoint rstrip_by (p : char -> bool) (s : str) : str :=
  match s with
  | [] => []
  | c :: s' =>
      match rstrip_by p s' with
      | [] => if p c then [] else [c]
      | r => c :: r
      end
  end.

Definition strip_by (p : char -> bool) (s : str) : str :=
  rstrip_by p (lstrip_by p s).

(** [s.strip()] *)
Definition strip (s : str) : str := strip_by is_space s.

(** ** Splitting *)

Definition cons_head (c : char) (l : list str) : list str :=
  match l with
  | h :: t => (c :: h) :: t
  | [] => [[c]]
  end.

(** [s.split(c)] and [re.split('[...]', s)] for a class without repetition:
    one cut at every separator, empty pieces kept. *)
Fixpoint split_each (sep : char -> bool) (s : str) : list str :=
  match s with
  | [] => [[]]
  | c :: s' => if sep c then [] :: split_each sep s'
               else cons_head c (split_each sep s')
  end.

(** [re.split('[...]+', s)]: one cut at every maximal run of separators. *)
Fixpoint split_runs_from (sep : char -> bool) (in_run : bool) (s : str)
  : list str :=
  match s with
  | [] => [[]]
  | c :: s' =>
      if sep c then
        if in_run then split_runs_from sep true s'
        else [] :: split_runs_from sep true s'
      else cons_head c (split_runs_from sep false s')
  end.

Definition split_runs (sep : char -> bool) (s : str) : list str :=
  split_runs_from sep false s.

(** [s.split(c, 1)] *)
Fixpoint split_once (c : char) (s : str) : list str :=
  match s with
  | [] => [[]]
  | x :: s' => if N.eqb x c then [[]; s']
               else cons_head x (split_once c s')
  end.

(** [sep.join(parts)] *)
Fixpoint join (sep : str) (parts : list str) : str :=
  match parts with
  | [] => []
  | [p] => p
  | p :: rest => p ++ sep ++ join sep rest
  end.

(** ** clean.py *)

Module Clean.

Definition bad_starts : list str := map lit
  [ "According to the provided information"; "According to the reference";
    "According to"; "Based on the information";
    "Based on the reference"; "Based on"; "From the information";
    "From the reference";
    "The provided information"; "The reference shows";
    "The information shows"; "The search results show";
    "Here is"; "Here are"; "This is"; "This"; "That"; "The";
    "The answer is"; "Answer is"; "Answer:"; "Answer:";
    "It is:"; "It is"; "It:"; "Is:"; "Is";
    "Should be"; "Could be"; "Might be" ]%string.

Definition colon : char := ch ":".
Definition dquote : char := 34%N.
Definition squote : char := 39%N.
Definition quotes : str := [dquote; squote].
Definition newline : char := 10%N.
Definition delimiters : str := [ch ","; ch "."; newline; ch ";"].
Definition trailing_punct : str := lit ".,;!?".

Local Open Scope result_scope.

(** Stage 1: the loop over [bad_starts], left at the first match. *)
Fixpoint strip_bad_start (bads : list str) (answer : str) : str :=
  match bads with
  | [] => answer
  | bad :: rest =>
      if startswith answer bad
      then strip (skipn (length bad) answer)
      else strip_bad_start rest answer
  end.

(** Stage 2. *)
Definition colon_split (answer : str) : result str :=
  if in_str colon answer then
    i <- index colon answer ;;
    if i <? 15 then
      part <- getitem_last (split_once colon answer) ;;
      Ok (strip part)
    else Ok answer
  else Ok answer.

(** Stage 4: the loop over the delimiters, left at the first one whose
    first segment is longer than two characters. *)
Fixpoint first_clause (ds : str) (answer : str) : result str :=
  match ds with
  | [] => Ok answer
  | delimiter :: rest =>
      if in_str delimiter answer then
        seg <- getitem (split_each (N.eqb delimiter) answer) 0 ;;
        let first := strip seg in
        if 2 <? length first then Ok first
        else first_clause rest answer
      else first_clause rest answer
  end.

Definition clean_answer_aggressive (answer : str) : result str :=
  if is_empty answer then Ok [] else
  let original := answer in
  let answer := strip_bad_start bad_starts answer in
  answer <- colon_split answer ;;
  let answer := strip_by (in_chars quotes) answer in
  answer <- first_clause delimiters answer ;;
  let answer := rstrip_by (in_chars trailing_punct) answer in
  let answer := if 30 <? length answer then firstn 30 answer else answer in
  let answer := strip answer in
  Ok (if is_empty answer then firstn 20 original else answer).

End Clean.

(** ** Regular expressions of extract.py *)

Fixpoint take_while (p : char -> bool) (s : str) : str :=
  match s with
  | [] => []
  | c :: s' => if p c then c :: take_while p s' else []
  end.

(** [re.findall] for a pattern without groups whose matches are never
    empty: [m prev s] is the length of the match the engine finds at the
    current position ([prev] is the character before it, [s] the rest of
    the text); after a match the scan resumes behind it, otherwise one
    character further. *)
Fixpoint findall_from (m : option char -> str -> option nat)
  (prev : option char) (s : str) (skip : nat) : list str :=
  match s with
  | [] => []
  | c :: s' =>
      match skip with
      | S k => findall_from m (Some c) s' k
      | O =>
          match m prev s with
          | Some (S n) => firstn (S n) s :: findall_from m (Some c) s' n
          | _ => findall_from m (Some c) s' 0
          end
      end
  end.

Definition findall (m : option char -> str -> option nat) (s : str)
  : list str :=
  findall_from m None s 0.

Definition is_ascii (c : char) : bool := (c <? 128)%N.

Definition is_ascii_letter (c : char) : bool :=
  ((65 <=? c) && (c <=? 90) || (97 <=? c) && (c <=? 122))%N.

Definition is_ascii_digit (c : char) : bool := ((48 <=? c) && (c <=? 57))%N.

Definition ascii_lower (c : char) : char :=
  if ((65 <=? c) && (c <=? 90))%N then (c + 32)%N else c.

(** ** Requests, references and the input and output records *)

(** What [generator.generate] is given: the string that flashrag's
    [PromptTemplate.get_string] builds from one of the four fixed system
    prompts and its arguments, or the chat message of the retry. *)
Inductive Prompt :=
| CoreQuestionPrompt (text : str)
| KeywordPrompt (text : str)
| SubQueryPrompt (text : str)
| AnswerPrompt (context query : str)
| ChatMessage (role content : str).

Record Reference := mkReference {
  title : option str;
  content : str;
  url : option str
}.

Inductive Event :=
| EGenerate (prompts : list Prompt)
| ESearch (query : str) (top_k : nat)
| EWrite (chunk : str).

(** The scalar JSON values an [id] takes. *)
Inductive json_scalar :=
| JNull
| JBool (b : bool)
| JInt (z : Z)
| JStr (s : str).

(** One element of the input array: an object with its three optional
    keys, or something that is not an object. *)
Inductive entry :=
| NotObject
| Object (id : option json_scalar) (input_field : option str)
         (output_field : option str).

(** ** json.dumps(..., ensure_ascii=False, indent=2) *)

Definition hex_digit (n : N) : char :=
  (if n <? 10 then 48 + n else 87 + n)%N.

Definition json_escape_char (c : char) : str :=
  if (c =? 34)%N then lit "\" ++ [34%N]
  else if (c =? 92)%N then lit "\\"
  else if (c =? 10)%N then lit "\n"
  else if (c =? 13)%N then lit "\r"
  else if (c =? 9)%N then lit "\t"
  else if (c =? 8)%N then lit "\b"
  else if (c =? 12)%N then lit "\f"
  else if (c <? 32)%N then lit "\u00" ++ [hex_digit (c / 16); hex_digit (c mod 16)]
  else [c].

Definition json_string (s : str) : str :=
  [34%N] ++ flat_map json_escape_char s ++ [34%N].

Definition decimal_nat (n : nat) : str :=
  lit (NilEmpty.string_of_uint (Nat.to_uint n)).

Definition decimal_Z (z : Z) : str :=
  lit (NilZero.string_of_int (Z.to_int z)).

Definition json_scalar_dumps (v : json_scalar) : str :=
  match v with
  | JNull => lit "null"
  | JBool true => lit "true"
  | JBool false => lit "false"
  | JInt z => decimal_Z z
  | JStr s => json_string s
  end.

(** The dictionary [{"id": ..., "output_field": ...}] with [indent=2]. *)
Definition json_dumps_result_item (question_id : json_scalar)
  (output_field : str) : str :=
  lit "{" ++ [10%N] ++
  lit "  " ++ json_string (lit "id") ++ lit ": " ++
    json_scalar_dumps question_id ++ lit "," ++ [10%N] ++
  lit "  " ++ json_string (lit "output_field") ++ lit ": " ++
    json_string output_field ++ [10%N] ++
  lit "}".

(** ** GoogleSearchClient.py *)

(** A value of a metatags dictionary: a string, or anything else, of
    which the code only takes the truth value. *)
Inductive meta_value :=
| MetaStr (s : str)
| MetaOther (truthy : bool).

Record Metatags := mkMetatags {
  og_description : option meta_value;
  description : option meta_value
}.

(** One element of [data["items"]]: [pagemap] is [None] without the key,
    [Some None] for a page map without [metatags]. *)
Record Item := mkItem {
  link : option str;
  item_title : option str;
  snippet : option str;
  pagemap : option (option (list Metatags))
}.

(** The parameters of the request that depend on the call. *)
Record SearchParams := mkSearchParams {
  param_q : str;
  param_num : nat;
  param_safe : str
}.

Definition meta_truthy (v : option meta_value) : bool :=
  match v with
  | Some (MetaStr s) => negb (is_empty s)
  | Some (MetaOther truthy) => truthy
  | None => false
  end.

(** [a or b] *)
Definition py_or (a b : option meta_value) : option meta_value :=
  if meta_truthy a then a else b.

Definition snippet_text (item : Item) : str :=
  match snippet item with
  | Some s => s
  | None => []
  end.

(** The inner [try] block of the loop over the items. *)
Definition enrich_content (item : Item) (content : str) : result str :=
  (metatags <- match pagemap item with
               | Some (Some tags) => getitem tags 0
               | _ => getitem [mkMetatags None None] 0
               end ;;
   match py_or (og_description metatags) (description metatags) with
   | Some (MetaStr desc) =>
       if negb (is_empty desc) && negb (contains desc content)
       then Ok (content ++ lit " " ++ desc)
       else Ok content
   | _ => Ok content
   end)%result.

Definition reference_of_item (item : Item) : Reference :=
  let content := snippet_text item in
  let content :=
    match enrich_content item content with
    | Ok enriched => enriched
    | Raise _ => content
    end in
  mkReference (item_title item) content (link item).

(** [web_search(query, top_k)] with the other arguments at their
    defaults. [http_get] stands for [requests.get], [raise_for_status]
    and [response.json()]: [None] when one of them raises, [Some None]
    for a response without [items]. *)
Definition google_web_search {W : Type}
  (http_get : W -> SearchParams -> option (option (list Item)) * W)
  (w : W) (query : str) (top_k : nat) : list Reference * W :=
  let params := mkSearchParams query (Nat.min top_k 10) (lit "off") in
  match http_get w params with
  | (Some (Some items), w1) => (map reference_of_item items, w1)
  | (Some None, w1) => ([], w1)
  | (None, w1) => ([], w1)
  end.

(** Python's [l[:k]] for an integer [k] of either sign. *)
Definition slice_to {A} (k : Z) (l : list A) : list A :=
  if (k <? 0)%Z
  then firstn (Z.to_nat (Z.of_nat (length l) + k)) l
  else firstn (Z.to_nat k) l.

(** [list.sort(key=score, reverse=True)]: stable, highest score first. *)
Fixpoint insert_desc (x : nat * str) (l : list (nat * str))
  : list (nat * str) :=
  match l with
  | [] => [x]
  | y :: l' => if fst y <=? fst x then x :: l
               else y :: insert_desc x l'
  end.

Fixpoint sort_desc (l : list (nat * str)) : list (nat * str) :=
  match l with
  | [] => []
  | x :: l' => insert_desc x (sort_desc l')
  end.

Definition str_eq_dec : forall a b : str, {a = b} + {a <> b} :=
  list_eq_dec N.eq_dec.

(** The first and the last character of a string, tested by [p]. *)
Definition starts_in (p : char -> bool) (s : str) : bool :=
  match s with
  | c :: _ => p c
  | [] => false
  end.

Fixpoint ends_in (p : char -> bool) (s : str) : bool :=
  match s with
  | [] => false
  | [c] => p c
  | _ :: s' => ends_in p s'
  end.

(** *** Shapes of an answer, for the statements about clean.py *)

Definition has_bad_start (t : str) : bool :=
  existsb (startswith t) Clean.bad_starts.

Definition colon_in_first_15 (t : str) : bool :=
  in_str Clean.colon (firstn 15 t).

Definition quoted (t : str) : bool :=
  starts_in (in_chars Clean.quotes) t || ends_in (in_chars Clean.quotes) t.

(** The text before the first occurrence of [d]. *)
Definition before (d : char) (t : str) : str :=
  take_while (fun x => negb (N.eqb d x)) t.

(** Some delimiter of stage 4 occurs and its first segment, trimmed, is
    longer than two characters. *)
Definition has_clause (t : str) : bool :=
  existsb (fun d => in_str d t && (2 <? length (strip (before d t))))
          Clean.delimiters.

Definition padded (t : str) : bool :=
  starts_in is_space t || ends_in is_space t.

(** Two neighbouring characters of [s] are both outside [sep]: some
    piece between separators is longer than one character. *)
Fixpoint crowded (sep : char -> bool) (s : str) : bool :=
  match s with
  | [] => false
  | c :: s' =>
      (negb (sep c) && starts_in (fun x => negb (sep x)) s') || crowded sep s'
  end.

(** *** The output stream *)

(** The chunks handed to [f_out.write], in order. *)
Fixpoint writes (events : list Event) : list str :=
  match events with
  | [] => []
  | EWrite chunk :: rest => chunk :: writes rest
  | _ :: rest => writes rest
  end.

(** The identifiers of the entries that are objects with an
    [input_field], numbered from [i] on as the loop does. *)
Fixpoint valid_ids (i : nat) (questions : list entry) : list json_scalar :=
  match questions with
  | [] => []
  | Object id (Some _) _ :: rest =>
      match id with
      | Some v => v
      | None => JStr (lit "q_" ++ decimal_nat i)
      end :: valid_ids (S i) rest
  | _ :: rest => valid_ids (S i) rest
  end.

(** The queries handed to [web_search] with their [top_k], and the
    prompt lists handed to [generate], in order. *)
Fixpoint searches (events : list Event) : list (str * nat) :=
  match events with
  | [] => []
  | ESearch query top_k :: rest => (query, top_k) :: searches rest
  | _ :: rest => searches rest
  end.

Fixpoint requests (events : list Event) : list (list Prompt) :=
  match events with
  | [] => []
  | EGenerate prompts :: rest => prompts :: requests rest
  | _ :: rest => requests rest
  end.

(** The number of line feeds in a chunk. *)
Definition line_feeds (chunk : str) : nat :=
  length (filter (N.eqb 10) chunk).

(** Stages 1 to 6 of [clean_answer_aggressive] with the [strip] that
    follows them (clean.py, lines 19 to 46), before the last line
    chooses between their result and [original[:20]]. *)
Definition transformed (answer : str) : result str :=
  let answer := Clean.strip_bad_start Clean.bad_starts answer in
  (answer <- Clean.colon_split answer ;;
   let answer := strip_by (in_chars Clean.quotes) answer in
   answer <- Clean.first_clause Clean.delimiters answer ;;
   let answer := rstrip_by (in_chars Clean.trailing_punct) answer in
   let answer := if 30 <? length answer then firstn 30 answer else answer in
   Ok (strip answer))%result.

(** *** What the results are, said without the functions that compute them *)

Definition blank (s : str) : bool := forallb is_space s.

(** [q] is [seg] without the whitespace around it. *)
Definition trims_to (seg q : str) : Prop :=
  exists lead trail,
    seg = lead ++ q ++ trail /\
    blank lead = true /\ blank trail = true /\ padded q = false.

(** [text] cut at every character of class [sep]: the pieces, in
    order, hold no separator, and one separator stands between
    neighbours. *)
Inductive cut_at (sep : char -> bool) : str -> list str -> Prop :=
| cut_last : forall seg,
    existsb sep seg = false ->
    cut_at sep seg [seg]
| cut_more : forall seg c text segs,
    existsb sep seg = false ->
    sep c = true ->
    cut_at sep text segs ->
    cut_at sep (seg ++ c :: text) (seg :: segs).

(** The maximal runs of characters of class [p] in a text, in order:
    the text is a gap without such characters, a run, and a rest that
    does not go on with the run. *)
Inductive runs (p : char -> bool) : str -> list str -> Prop :=
| runs_none : forall gap,
    forallb (fun c => negb (p c)) gap = true ->
    runs p gap []
| runs_more : forall gap run rest others,
    forallb (fun c => negb (p c)) gap = true ->
    run <> [] ->
    forallb p run = true ->
    starts_in p rest = false ->
    runs p rest others ->
    runs p (gap ++ run ++ rest) (run :: others).


Definition sentence_mark (c : char) : bool :=
  (c =? 46)%N || (c =? 63)%N || (c =? 33)%N.

Definition mark_or_space (c : char) : bool := sentence_mark c || is_space c.

(** [r] is the last piece of [text] between sentence marks that is not
    blank, without the whitespace around it: behind it come only marks
    and whitespace. *)
Definition last_sentence_of (text r : str) : Prop :=
  exists before lead trail after,
    text = before ++ lead ++ r ++ trail ++ after /\
    (before = [] \/ ends_in sentence_mark before = true) /\
    blank lead = true /\ blank trail = true /\
    is_empty r = false /\ padded r = false /\
    existsb sentence_mark r = false /\
    (after = [] \/ starts_in sentence_mark after = true) /\
    forallb mark_or_space after = true.

(** *** The input array as [json.load] gives it, and the encoder *)

(** One element of the input array. Its [input_field], when present, is
    any scalar; arrays and objects in that place are left out. *)
Inductive raw_entry :=
| RawOther
| RawObject (id : option json_scalar) (input_field : option json_scalar)
            (output_field : option json_scalar).


(** A surrogate code point, which the UTF-8 encoder of the output file
    refuses. *)
Definition is_surrogate (c : char) : bool :=
  ((55296 <=? c) && (c <=? 57343))%N.


(** A template engine that accepts arguments up to a size. *)
Definition prompt_argument_length (prompt : Prompt) : nat :=
  match prompt with
  | CoreQuestionPrompt text => length text
  | KeywordPrompt text => length text
  | SubQueryPrompt text => length text
  | AnswerPrompt context query => length context + length query
  | ChatMessage _ content => length content
  end.

Definition renders_up_to (limit : nat) (prompt : Prompt) : bool :=
  prompt_argument_length prompt <=? limit.

(** *** Inputs of the worked examples *)



Definition paris_document : str :=
  lit "Paris is the capital of France. It is known for the Eiffel Tower.".

Definition paris_question : str := lit "What is the capital of France?".

(** Three documents of one sentence each. Against [paris_question] they
    share 4, 2 and 5 words with the question, against [name_question]
    2 words each. *)
Definition rome_document : str := lit "Rome is the capital of Italy".
Definition tower_document : str := lit "The Eiffel Tower is in Paris".
Definition capital_document : str := lit "Paris is the capital of France".

Definition capital_documents : list str :=
  [rome_document; tower_document; capital_document].

Definition name_question : str := lit "What is the name".



(** A question behind a sentence, with a space before its question
    mark and one behind it. *)
Definition padded_question : str :=
  lit "Bram Stoker wrote Dracula in 1897. Who wrote the novel ? ".

(** A text of 5800 characters. *)
Definition long_question : str :=
  concat (repeat (lit "Who wrote the novel Dracula? ") 200).


(** *** Collaborators of the worked examples *)

(** A generator that plays back a script, one entry per call ([None]: the
    call raises), and raises once the script is over. *)
Definition scripted_generate (w : list (option (list str)))
  (prompts : list Prompt) : option (list str) * list (option (list str)) :=
  match w with
  | r :: w' => (r, w')
  | [] => (None, [])
  end.

(** A search provider without results. *)
Definition empty_web_search (w : list (option (list str))) (query : str)
  (top_k : nat) : list Reference * list (option (list str)) :=
  ([], w).

Definition ascii_only (c : char) : bool := false.

(** A template engine that accepts every argument. *)
Definition always_renders (prompt : Prompt) : bool := true.

Definition dracula_question : str := lit "Who wrote the novel Dracula?".



(** A search item whose description is not in its snippet, and a
    transport that returns it once. *)
Definition stoker_item : Item :=
  mkItem (Some (lit "https://example.org/dracula"))
         (Some (lit "Dracula"))
         (Some (lit "Dracula is a novel."))
         (Some (Some [mkMetatags (Some (MetaStr (lit "By Bram Stoker")))
                                 None])).

Definition one_item_http (w : unit) (params : SearchParams)
  : option (option (list Item)) * unit :=
  (Some (Some [stoker_item]), w).

(** Three outputs in a row: a core question, keywords, an answer. *)
Definition dracula_script : list (option (list str)) :=
  [Some [lit "Who wrote it"]; Some [lit "Dracula novel author"];
   Some [lit "Bram Stoker"]].

(** ** The pipeline over its collaborators *)

Section Pipeline.

(** Python's Unicode tables beyond ASCII: [str.isalnum], the decimal
    digits (category Nd) and [str.lower] on a string with a non-ASCII
    character. *)
Variable unicode_alnum : char -> bool.
Variable unicode_decimal : char -> bool.
Variable unicode_lower : str -> str.

(** The state of everything outside the process, the language model
    ([None] when [generate] raises) and the search provider, whose
    [web_search] catches every exception itself and returns its
    references. *)
Variable World : Type.
Variable generate : World -> list Prompt -> option (list str) * World.
Variable web_search : World -> str -> nat -> list Reference * World.

(** *** Character classes *)

(** [\d] *)
Definition is_digit (c : char) : bool :=
  if is_ascii c then is_ascii_digit c else unicode_decimal c.

(** [\w] *)
Definition is_word (c : char) : bool :=
  if is_ascii c
  then is_ascii_letter c || is_ascii_digit c || (c =? 95)%N
  else unicode_alnum c || unicode_decimal c.

(** [\b] between two neighbouring positions; outside the text counts as
    a non-word character. *)
Definition boundary (before after : option char) : bool :=
  xorb (match before with Some c => is_word c | None => false end)
       (match after with Some c => is_word c | None => false end).


(** The longest candidate length first, then shorter ones, as the
    backtracking engine tries them; [k] characters have been consumed and
    [\b] must hold behind them. *)
Fixpoint backtrack (lo : nat) (s : str) (k : nat) : option nat :=
  match k with
  | O => None
  | S k' =>
      if k <? lo then None
      else if boundary (nth_error s k') (nth_error s k) then Some k
      else backtrack lo s k'
  end.

(** [\b[A-Za-z]{lo,hi}\b] at one position ([hi = None] for [{lo,}]). *)
Definition match_letters (lo : nat) (hi : option nat)
  (prev : option char) (s : str) : option nat :=
  if boundary prev (hd_error s) then
    let run := length (take_while is_ascii_letter s) in
    backtrack lo s (match hi with Some h => Nat.min h run | None => run end)
  else None.

(** [\d+] at one position. *)
Definition match_digits (prev : option char) (s : str) : option nat :=
  match length (take_while is_digit s) with
  | O => None
  | n => Some n
  end.

(** [s.lower()] *)
Definition lower (s : str) : str :=
  if forallb is_ascii s then map ascii_lower s else unicode_lower s.

(** *** The monad of the pipeline *)

Definition M (A : Type) : Type := World -> result A * list Event * World.

Definition ret {A} (a : A) : M A := fun w => (Ok a, [], w).

Definition raise {A} (e : exn) : M A := fun w => (Raise e, [], w).

Definition bind {A B} (m : M A) (k : A -> M B) : M B :=
  fun w =>
    match m w with
    | (Ok a, t1, w1) => let '(r, t2, w2) := k a w1 in (r, t1 ++ t2, w2)
    | (Raise e, t1, w1) => (Raise e, t1, w1)
    end.

(** [try: m except: h] *)
Definition try_except {A} (m : M A) (h : exn -> M A) : M A :=
  fun w =>
    match m w with
    | (Ok a, t1, w1) => (Ok a, t1, w1)
    | (Raise e, t1, w1) => let '(r, t2, w2) := h e w1 in (r, t1 ++ t2, w2)
    end.

Definition lift {A} (r : result A) : M A := fun w => (r, [], w).

Definition call_generate (prompts : list Prompt) : M (list str) :=
  fun w =>
    match generate w prompts with
    | (Some outputs, w1) => (Ok outputs, [EGenerate prompts], w1)
    | (None, w1) => (Raise GeneratorError, [EGenerate prompts], w1)
    end.

Definition call_web_search (query : str) (top_k : nat) : M (list Reference) :=
  fun w =>
    let '(refs, w1) := web_search w query top_k in
    (Ok refs, [ESearch query top_k], w1).

Definition write (chunk : str) : M unit :=
  fun w => (Ok tt, [EWrite chunk], w).

Declare Scope pipeline_scope.
Delimit Scope pipeline_scope with pipeline.
Notation "x <- e ;; k" := (bind e (fun x => k))
  (at level 61, e at next level, right associativity) : pipeline_scope.
Local Open Scope pipeline_scope.

(** *** extract.py *)

(** The loops [for prefix in [...]: if s.startswith(prefix): ...], which
    have no [break]. *)
Definition strip_prefixes (prefixes : list str) (s : str) : str :=
  fold_left
    (fun acc prefix =>
       if startswith acc prefix then strip (skipn (length prefix) acc)
       else acc)
    prefixes s.

Definition core_prefixes : list str :=
  map lit ["Output:"; "Answer:"; "Question:"; "Core question:"]%string.

Definition clean_core_question (output : str) : str :=
  let core_q := strip output in
  let core_q := strip_prefixes core_prefixes core_q in
  strip (rstrip_by (in_chars (lit "?.")) core_q).

(** The fallback of [extract_question_with_llm]. *)
Definition last_sentence (text : str) : str :=
  let sentences := split_each (in_chars (lit ".?!")) text in
  let sentences :=
    map strip (filter (fun s => negb (is_empty (strip s))) sentences) in
  if is_empty sentences then text else last sentences text.

Definition extract_question_with_llm (text : str) : M str :=
  if length text <? 20 then ret text else
  let prompt := CoreQuestionPrompt text in
  returned <- try_except
    (result <- call_generate [prompt] ;;
     match result with
     | first :: _ =>
         let core_q := clean_core_question first in
         if length core_q <? 3 then raise ValueError
         else ret (Some core_q)
     | [] => ret None
     end)
    (fun _ => ret None) ;;
  match returned with
  | Some core_q => ret core_q
  | None => ret (last_sentence text)
  end.

Definition entity_prefixes : list str :=
  map lit ["Output:"; "Keywords:"; "Entities:"]%string.

Definition comma_or_space (c : char) : bool :=
  (c =? 44)%N || is_space c.

Definition parse_entities (output : str) : list str :=
  let entities_str := strip output in
  let entities_str := strip_prefixes entity_prefixes entities_str in
  let entities := split_runs comma_or_space entities_str in
  let entities :=
    map strip
      (filter (fun e => negb (is_empty (strip e)) && (1 <? length e))
              entities) in
  firstn 10 entities.

(** The fallback of [extract_core_entities]. *)
Definition fallback_keywords (text : str) : list str :=
  let words := findall (match_letters 2 (Some 15)) text in
  let numbers := findall match_digits text in
  let keywords := firstn 6 words ++ firstn 3 numbers in
  if is_empty keywords then [firstn 30 text] else firstn 10 keywords.

Definition extract_core_entities (text : str) : M (list str) :=
  if length text <? 10 then ret [text] else
  let prompt := KeywordPrompt text in
  returned <- try_except
    (result <- call_generate [prompt] ;;
     match result with
     | first :: _ => ret (Some (parse_entities first))
     | [] => ret None
     end)
    (fun _ => ret None) ;;
  match returned with
  | Some entities => ret entities
  | None => ret (fallback_keywords text)
  end.

Definition fullwidth_comma : char := 65292%N.

(** [raw_output.replace('，', ',')] *)
Definition normalize_commas (s : str) : str :=
  map (fun c => if (c =? fullwidth_comma)%N then 44%N else c) s.

Definition parse_queries (output : str) : list str :=
  let raw_output := strip output in
  let raw_output := normalize_commas raw_output in
  map strip
    (filter (fun x => negb (is_empty (strip x)))
            (split_each (N.eqb 44) raw_output)).

Definition extract_core_querys (text : str) : M (list str) :=
  if length text <? 10 then ret [text] else
  let prompt := SubQueryPrompt text in
  try_except
    (result <- call_generate [prompt] ;;
     first <- lift (getitem result 0) ;;
     ret (parse_queries first))
    (fun _ => ret [text]).

Definition sentence_end (c : char) : bool :=
  in_chars [12290; 65281; 65311; 10]%N c.

Definition word_set (s : str) : list str :=
  nodup str_eq_dec (findall (match_letters 2 None) (lower s)).

(** [len(question_keywords & sent_words)] *)
Definition overlap_score (question_keywords : list str) (sent : str) : nat :=
  let sent_words := word_set sent in
  length (filter (fun w => existsb (str_eqb w) sent_words) question_keywords).

Definition extract_relevant_sentences (documents : list str)
  (question : str) (max_sentences : Z) : str :=
  if is_empty documents then [] else
  let all_sentences :=
    flat_map
      (fun doc =>
         map strip
           (filter (fun s => 10 <? length (strip s))
                   (split_runs sentence_end doc)))
      documents in
  if is_empty all_sentences then
    match documents with
    | first :: _ => firstn 200 first
    | [] => []
    end
  else
  let question_keywords := word_set question in
  let sentence_scores :=
    map (fun sent => (overlap_score question_keywords sent, sent))
        (firstn 50 all_sentences) in
  let sentence_scores := sort_desc sentence_scores in
  let top_sentences :=
    map snd
      (filter (fun p => 0 <? fst p) (slice_to max_sentences sentence_scores))
  in
  if is_empty top_sentences
  then join [10%N] (firstn 2 all_sentences)
  else join [10%N] top_sentences.

(** The two intermediate lists of [extract_relevant_sentences], under
    names of their own: the fragments kept from all documents, and the
    first 50 of them with their scores, sorted. *)
Definition collect_sentences (documents : list str) : list str :=
  flat_map
    (fun doc =>
       map strip
         (filter (fun s => 10 <? length (strip s))
                 (split_runs sentence_end doc)))
    documents.

Definition rank_sentences (question_keywords all_sentences : list str)
  : list (nat * str) :=
  sort_desc
    (map (fun sent => (overlap_score question_keywords sent, sent))
         (firstn 50 all_sentences)).


(** *** mian.py *)

Record Decomposition := mkDecomposition {
  core_question : str;
  entities : list str;
  search_query : str
}.

(** Steps 1 and 2 of the loop body. *)
Definition decompose_stage (question_text : str) : M Decomposition :=
  core_question <- extract_question_with_llm question_text ;;
  entities <- extract_core_entities question_text ;;
  let search_query :=
    if is_empty entities then core_question else join (lit " ") entities in
  ret (mkDecomposition core_question entities search_query).

(** Step 4: titles and contents of the first five references. *)
Definition aggregate (references : list Reference) : list str :=
  flat_map
    (fun ref =>
       (match title ref with
        | Some t => if is_empty t then [] else [t]
        | None => []
        end) ++
       (if is_empty (content ref) then [] else [content ref]))
    (firstn 5 references).

Definition leakage : list str :=
  map lit ["according"; "based on"; "information"; "reference"]%string.

Definition needs_retry (answer_text : str) : bool :=
  (length answer_text <? 2) ||
  existsb (fun bad => contains bad answer_text) leakage.

Definition simple_prompt (relevant_context core_question : str) : str :=
  relevant_context ++ [10; 10]%N ++ lit "Question: " ++ core_question ++
  [10%N] ++ lit "Answer:".

Definition generation_failed : str := [29983; 25104; 22833; 36133]%N.
Definition error_marker : str := [38169; 35823]%N.

(** Step 6: the [try] block that generates, cleans, checks and retries. *)
Definition answer_stage (relevant_context core_question : str) : M str :=
  let prompt := AnswerPrompt relevant_context core_question in
  try_except
    (answer_list <- call_generate [prompt] ;;
     match answer_list with
     | first :: _ =>
         let answer_text := strip first in
         answer_text <- lift (Clean.clean_answer_aggressive answer_text) ;;
         if needs_retry answer_text then
           retry <- call_generate
             [ChatMessage (lit "user")
                          (simple_prompt relevant_context core_question)] ;;
           match retry with
           | retry0 :: _ => lift (Clean.clean_answer_aggressive retry0)
           | [] => ret answer_text
           end
         else ret answer_text
     | [] => ret generation_failed
     end)
    (fun _ => ret error_marker).

Definition process_question (question_id : json_scalar)
  (question_text : str) : M unit :=
  d <- decompose_stage question_text ;;
  references <- call_web_search (search_query d) 10 ;;
  let documents := aggregate references in
  let relevant_context :=
    extract_relevant_sentences documents question_text 2 in
  output_field <- answer_stage relevant_context (core_question d) ;;
  write (json_dumps_result_item question_id output_field ++ [10%N]).

(** The loop [for i, q in enumerate(questions)], from index [i] on. *)
Fixpoint main_loop (i : nat) (questions : list entry) : M unit :=
  match questions with
  | [] => ret tt
  | q :: rest =>
      match q with
      | Object id (Some question_text) _ =>
          let question_id :=
            match id with
            | Some v => v
            | None => JStr (lit "q_" ++ decimal_nat i)
            end in
          _ <- process_question question_id question_text ;;
          main_loop (S i) rest
      | _ => main_loop (S i) rest
      end
  end.

Definition main (questions : list entry) : M unit := main_loop 0 questions.


(** *** The calls in full *)

(** The routines above start where their prompt exists. In the source
    each prompt is built by [PromptTemplate(...).get_string(...)] of
    flashrag outside every [try] block, the loop subscripts
    [input_field] whatever its type, and the output file encodes what it
    is given; console output is taken to accept every string.
    [renders] tells whether [get_string] returns for a template and its
    arguments. *)
Variable renders : Prompt -> bool.

Definition build_prompt (prompt : Prompt) : M unit :=
  if renders prompt then ret tt else raise PromptError.

Definition extract_question_with_llm_call (text : str) : M str :=
  if length text <? 20 then ret text else
  _ <- build_prompt (CoreQuestionPrompt text) ;;
  extract_question_with_llm text.

Definition extract_core_entities_call (text : str) : M (list str) :=
  if length text <? 10 then ret [text] else
  _ <- build_prompt (KeywordPrompt text) ;;
  extract_core_entities text.

Definition extract_core_querys_call (text : str) : M (list str) :=
  if length text <? 10 then ret [text] else
  _ <- build_prompt (SubQueryPrompt text) ;;
  extract_core_querys text.

Definition decompose_stage_call (question_text : str) : M Decomposition :=
  core_question <- extract_question_with_llm_call question_text ;;
  entities <- extract_core_entities_call question_text ;;
  let search_query :=
    if is_empty entities then core_question else join (lit " ") entities in
  ret (mkDecomposition core_question entities search_query).

Definition answer_stage_call (relevant_context core_question : str)
  : M str :=
  _ <- build_prompt (AnswerPrompt relevant_context core_question) ;;
  answer_stage relevant_context core_question.

(** [f_out.write] on a file opened with [encoding='utf-8']. *)
Definition write_encoded (chunk : str) : M unit :=
  if existsb is_surrogate chunk then raise UnicodeEncodeError
  else write chunk.

Definition process_question_call (question_id : json_scalar)
  (question_text : str) : M unit :=
  d <- decompose_stage_call question_text ;;
  references <- call_web_search (search_query d) 10 ;;
  let documents := aggregate references in
  let relevant_context :=
    extract_relevant_sentences documents question_text 2 in
  output_field <- answer_stage_call relevant_context (core_question d) ;;
  write_encoded (json_dumps_result_item question_id output_field ++ [10%N]).

(** The loop over the array as loaded: [question_text[:60]] raises
    [TypeError] on an [input_field] that is not a string. *)
Fixpoint main_loop_call (i : nat) (questions : list raw_entry) : M unit :=
  match questions with
  | [] => ret tt
  | q :: rest =>
      match q with
      | RawObject id (Some field) _ =>
          let question_id :=
            match id with
            | Some v => v
            | None => JStr (lit "q_" ++ decimal_nat i)
            end in
          match field with
          | JStr question_text =>
              _ <- process_question_call question_id question_text ;;
              main_loop_call (S i) rest
          | _ => raise TypeError
          end
      | _ => main_loop_call (S i) rest
      end
  end.

Definition main_call (questions : list raw_entry) : M unit :=
  main_loop_call 0 questions.

(** * Properties *)

Unset Implicit Arguments.
Set Default Proof Using "Type".

(** ** Strings *)

Lemma lstrip_by_length (p : char -> bool) (s : str) :
  length (lstrip_by p s) <= length s.
Proof.
  induction s as [|c s IH]; simpl; [lia|].
  destruct (p c); simpl; lia.
Qed.

Lemma rstrip_by_length (p : char -> bool) (s : str) :
  length (rstrip_by p s) <= length s.
Proof.
  induction s as [|c s IH]; simpl; [lia|].
  destruct (rstrip_by p s) as [|x r]; [destruct (p c)|]; simpl in *; lia.
Qed.

Lemma strip_by_length (p : char -> bool) (s : str) :
  length (strip_by p s) <= length s.
Proof.
  unfold strip_by.
  pose proof (rstrip_by_length p (lstrip_by p s)).
  pose proof (lstrip_by_length p s). lia.
Qed.

Lemma strip_length (s : str) : length (strip s) <= length s.
Proof. apply strip_by_length. Qed.

Lemma lstrip_by_fixed (p : char -> bool) (s : str) :
  starts_in p s = false -> lstrip_by p s = s.
Proof.
  destruct s as [|c s]; simpl; [reflexivity|].
  intros ->. reflexivity.
Qed.

Lemma rstrip_by_fixed (p : char -> bool) (s : str) :
  ends_in p s = false -> rstrip_by p s = s.
Proof.
  induction s as [|c s IH]; [reflexivity|].
  destruct s as [|c' s'].
  - simpl. intros ->. reflexivity.
  - intros H. change (ends_in p (c' :: s') = false) in H.
    specialize (IH H).
    change (rstrip_by p (c :: c' :: s'))
      with (match rstrip_by p (c' :: s') with
            | [] => if p c then [] else [c]
            | r => c :: r
            end).
    rewrite IH. reflexivity.
Qed.

Lemma strip_by_fixed (p : char -> bool) (s : str) :
  starts_in p s = false -> ends_in p s = false -> strip_by p s = s.
Proof.
  intros Hs He. unfold strip_by.
  rewrite (lstrip_by_fixed p s Hs). apply rstrip_by_fixed, He.
Qed.

Lemma in_str_index (c : char) (s : str) :
  in_str c s = true -> exists i, index c s = Ok i.
Proof.
  unfold in_str. induction s as [|x s IH]; simpl; [discriminate|].
  rewrite (N.eqb_sym c x).
  destruct (N.eqb x c); simpl.
  - intros _. exists 0. reflexivity.
  - intros H. destruct (IH H) as [i Hi]. rewrite Hi. eauto.
Qed.

Lemma index_in_prefix (c : char) (s : str) (i n : nat) :
  index c s = Ok i -> i < n -> in_str c (firstn n s) = true.
Proof.
  unfold in_str. revert i n.
  induction s as [|x s IH]; intros i n; simpl; [discriminate|].
  destruct n as [|n]; [lia|].
  simpl. rewrite (N.eqb_sym c x).
  destruct (N.eqb x c); simpl; [reflexivity|].
  destruct (index c s) as [j|e] eqn:Hj; [|discriminate].
  intros [= <-] Hlt. apply (IH j n); [reflexivity | lia].
Qed.

Lemma split_each_head (sep : char -> bool) (s : str) :
  exists rest,
    split_each sep s = take_while (fun x => negb (sep x)) s :: rest.
Proof.
  induction s as [|c s [rest IH]]; simpl.
  - exists []. reflexivity.
  - destruct (sep c); simpl.
    + eauto.
    + rewrite IH. simpl. eauto.
Qed.

Lemma split_once_last (c : char) (s : str) :
  exists part, getitem_last (split_once c s) = Ok part.
Proof.
  assert (H : split_once c s <> []).
  { induction s as [|x s IH]; simpl; [discriminate|].
    destruct (N.eqb x c); [discriminate|].
    destruct (split_once c s); simpl; [congruence | discriminate]. }
  unfold getitem_last.
  destruct (rev (split_once c s)) as [|a l] eqn:E; [|eauto].
  apply (f_equal (@rev str)) in E. rewrite rev_involutive in E.
  simpl in E. contradiction.
Qed.

(** ** clean.py *)

Lemma colon_split_total (answer : str) :
  exists r, Clean.colon_split answer = Ok r.
Proof.
  unfold Clean.colon_split.
  destruct (in_str Clean.colon answer) eqn:Hin; [|eauto].
  destruct (in_str_index _ _ Hin) as [i ->]. simpl.
  destruct (i <? 15); [|eauto].
  destruct (split_once_last Clean.colon answer) as [part ->]. simpl. eauto.
Qed.

Lemma first_clause_total (ds answer : str) :
  exists r, Clean.first_clause ds answer = Ok r.
Proof.
  induction ds as [|d ds IH]; simpl; [eauto|].
  destruct (in_str d answer); [|exact IH].
  destruct (split_each_head (N.eqb d) answer) as [rest ->].
  unfold getitem. simpl.
  destruct (2 <? _); [eauto | exact IH].
Qed.

Lemma clean_answer_total_bounded (s : str) :
  exists r, Clean.clean_answer_aggressive s = Ok r /\
            length r <= 30 /\ is_empty r = is_empty s.
Proof.
  unfold Clean.clean_answer_aggressive.
  destruct s as [|c s]; [exists []; simpl; auto with arith|].
  cbv beta iota delta [is_empty].
  destruct (colon_split_total
              (Clean.strip_bad_start Clean.bad_starts (c :: s))) as [a1 ->].
  cbv beta iota delta [rbind].
  destruct (first_clause_total Clean.delimiters
              (strip_by (in_chars Clean.quotes) a1)) as [a2 ->].
  cbv beta iota.
  set (a3 := rstrip_by (in_chars Clean.trailing_punct) a2).
  set (a4 := if 30 <? length a3 then firstn 30 a3 else a3).
  assert (H4 : length a4 <= 30).
  { subst a4. destruct (30 <? length a3) eqn:E.
    - rewrite length_firstn. lia.
    - apply Nat.ltb_ge in E. exact E. }
  pose proof (strip_length a4) as H5.
  destruct (strip a4) as [|x r] eqn:E5.
  - eexists. split; [reflexivity|]. split; [|reflexivity].
    rewrite length_firstn. lia.
  - eexists. split; [reflexivity|]. split; [|reflexivity].
    simpl in *. lia.
Qed.

(** C1. For every string, [clean_answer_aggressive] returns (it never
    raises) a string of at most 30 characters, which is empty exactly when
    the input is; on the empty string it returns the empty string. *)
Theorem clean_answer_short_and_nonempty :
  (forall s : str,
      exists r, Clean.clean_answer_aggressive s = Ok r /\
                length r <= 30 /\ is_empty r = is_empty s) /\
  Clean.clean_answer_aggressive [] = Ok [].
Proof.
  split; [exact clean_answer_total_bounded | reflexivity].
Qed.

Lemma strip_bad_start_fixed (bads : list str) (t : str) :
  existsb (startswith t) bads = false -> Clean.strip_bad_start bads t = t.
Proof.
  induction bads as [|bad bads IH]; simpl; [reflexivity|].
  destruct (startswith t bad); simpl; [discriminate | exact IH].
Qed.

Lemma colon_split_fixed (t : str) :
  colon_in_first_15 t = false -> Clean.colon_split t = Ok t.
Proof.
  unfold colon_in_first_15, Clean.colon_split. intros H.
  destruct (in_str Clean.colon t) eqn:Hin; [|reflexivity].
  destruct (in_str_index _ _ Hin) as [i Hi]. rewrite Hi. simpl.
  destruct (i <? 15) eqn:Hlt; [|reflexivity].
  apply Nat.ltb_lt in Hlt.
  rewrite (index_in_prefix _ _ _ _ Hi Hlt) in H. discriminate.
Qed.

Lemma first_clause_fixed (ds t : str) :
  existsb (fun d => in_str d t && (2 <? length (strip (before d t)))) ds
  = false ->
  Clean.first_clause ds t = Ok t.
Proof.
  induction ds as [|d ds IH]; simpl; [reflexivity|].
  intros H. apply orb_false_elim in H. destruct H as [Hd Hds].
  destruct (in_str d t); [|exact (IH Hds)].
  destruct (split_each_head (N.eqb d) t) as [rest ->].
  unfold getitem. simpl. simpl in Hd. unfold before in Hd.
  rewrite Hd. exact (IH Hds).
Qed.

Lemma clean_answer_fixed (t : str) :
  has_bad_start t = false ->
  colon_in_first_15 t = false ->
  quoted t = false ->
  has_clause t = false ->
  ends_in (in_chars Clean.trailing_punct) t = false ->
  padded t = false ->
  length t <= 30 ->
  Clean.clean_answer_aggressive t = Ok t.
Proof.
  intros Hbad Hcolon Hquote Hclause Hpunct Hpad Hlen.
  unfold Clean.clean_answer_aggressive.
  destruct t as [|c t]; [reflexivity|].
  cbv beta iota delta [is_empty].
  rewrite (strip_bad_start_fixed _ _ Hbad).
  rewrite (colon_split_fixed _ Hcolon).
  cbv beta iota delta [rbind].
  apply orb_false_elim in Hquote. destruct Hquote as [Hq1 Hq2].
  rewrite (strip_by_fixed _ _ Hq1 Hq2).
  rewrite (first_clause_fixed _ _ Hclause).
  cbv beta iota.
  rewrite (rstrip_by_fixed _ _ Hpunct).
  apply Nat.ltb_ge in Hlen. rewrite Hlen.
  apply orb_false_elim in Hpad. destruct Hpad as [Hp1 Hp2].
  unfold strip. rewrite (strip_by_fixed _ _ Hp1 Hp2).
  reflexivity.
Qed.

(** C8, as amended. When the first pass yields a string that has no
    boilerplate prefix, no colon among its first 15 characters and no
    leading or trailing quote, and moreover no first-clause delimiter with
    a trimmed first segment longer than two characters, no trailing
    [.,;!?] and no surrounding whitespace, a second pass returns it
    unchanged. *)
Theorem clean_answer_idempotent_on_clean (s t : str) :
  Clean.clean_answer_aggressive s = Ok t ->
  has_bad_start t = false ->
  colon_in_first_15 t = false ->
  quoted t = false ->
  has_clause t = false ->
  ends_in (in_chars Clean.trailing_punct) t = false ->
  padded t = false ->
  Clean.clean_answer_aggressive t = Ok t.
Proof.
  intros Hs Hbad Hcolon Hquote Hclause Hpunct Hpad.
  destruct (clean_answer_total_bounded s) as [r [Hr [Hlen _]]].
  rewrite Hs in Hr. injection Hr as <-.
  now apply clean_answer_fixed.
Qed.

(** C8 as stated fails: the first pass on a domain name followed by a
    comma keeps the domain name, which has no boilerplate prefix, no early
    colon, no quote and at most 30 characters; the second pass cuts it at
    its first full stop. *)
Lemma clean_answer_not_idempotent :
  let s := lit "www.example.com, site" in
  let t := lit "www.example.com" in
  Clean.clean_answer_aggressive s = Ok t /\
  has_bad_start t = false /\
  colon_in_first_15 t = false /\
  quoted t = false /\
  length t <= 30 /\
  Clean.clean_answer_aggressive t = Ok (lit "www") /\
  Clean.clean_answer_aggressive t <> Ok t.
Proof.
  cbv zeta. repeat split; try reflexivity.
  - vm_compute. lia.
  - vm_compute. discriminate.
Qed.

(** The two further conditions are needed as well: the length cap can
    leave a punctuation mark at the end, and the fallback to the raw
    input can leave whitespace there. *)
Example clean_answer_cap_exposes_punctuation :
  let t := repeat 97%N 29 ++ lit "!" in
  Clean.clean_answer_aggressive (t ++ lit "b") = Ok t /\
  Clean.clean_answer_aggressive t = Ok (repeat 97%N 29).
Proof. split; reflexivity. Qed.

Example clean_answer_fallback_keeps_whitespace :
  let t := lit "!!!" ++ repeat 32%N 17 in
  Clean.clean_answer_aggressive (t ++ lit ",") = Ok t /\
  Clean.clean_answer_aggressive t = Ok (lit "!!!").
Proof. split; reflexivity. Qed.

Example clean_answer_ringo_sheena :
  Clean.clean_answer_aggressive (lit "Answer: Ringo Sheena.")
  = Ok (lit "Ringo Sheena").
Proof. reflexivity. Qed.

(** The amended C8 at ["Answer: Ringo Sheena."]. *)
Lemma clean_answer_idempotent_on_clean_witness :
  Clean.clean_answer_aggressive (lit "Ringo Sheena") = Ok (lit "Ringo Sheena").
Proof.
  apply (clean_answer_idempotent_on_clean (lit "Answer: Ringo Sheena."));
    reflexivity.
Defined.

(** ** extract.py: relevance *)

(** C6. The Paris document is returned unchanged for the question about
    the capital of France and a cap of 2: no sentence terminator splits
    it, it is longer than 10 characters, and it shares five words with
    the question; with no documents the result is the empty string for
    every question and cap. *)
Theorem extract_relevant_sentences_examples :
  extract_relevant_sentences [paris_document] paris_question 2
  = paris_document /\
  split_runs sentence_end paris_document = [paris_document] /\
  10 < length paris_document /\
  overlap_score (word_set paris_question) paris_document = 5 /\
  word_set paris_question
  = map lit ["what"; "is"; "the"; "capital"; "of"; "france"]%string /\
  (forall (q : str) (n : Z), extract_relevant_sentences [] q n = []).
Proof.
  repeat split; try (vm_compute; reflexivity).
  vm_compute. lia.
Qed.

(** ** extract.py: sub-queries *)

Lemma existsb_lstrip_by (f p : char -> bool) (s : str) :
  existsb f s = false -> existsb f (lstrip_by p s) = false.
Proof.
  induction s as [|c s IH]; simpl; [reflexivity|].
  intros H. apply orb_false_elim in H. destruct H as [Hc Hs].
  destruct (p c); [exact (IH Hs)|]. simpl. now rewrite Hc, Hs.
Qed.

Lemma existsb_rstrip_by (f p : char -> bool) (s : str) :
  existsb f s = false -> existsb f (rstrip_by p s) = false.
Proof.
  induction s as [|c s IH]; simpl; [reflexivity|].
  intros H. apply orb_false_elim in H. destruct H as [Hc Hs].
  specialize (IH Hs).
  destruct (rstrip_by p s) as [|x r].
  - destruct (p c); simpl; [reflexivity | now rewrite Hc].
  - change (existsb f (c :: x :: r)) with (f c || existsb f (x :: r)).
    now rewrite Hc, IH.
Qed.

Lemma existsb_strip (f : char -> bool) (s : str) :
  existsb f s = false -> existsb f (strip s) = false.
Proof.
  intros H. unfold strip, strip_by.
  apply existsb_rstrip_by, existsb_lstrip_by. exact H.
Qed.

Lemma split_each_segments (f sep : char -> bool) (s : str) :
  (forall c, f c = true -> sep c = false -> In c s -> False) ->
  Forall (fun seg => existsb f seg = false) (split_each sep s).
Proof.
  induction s as [|c s IH]; intros H; simpl.
  - repeat constructor.
  - assert (IH' : Forall (fun seg => existsb f seg = false) (split_each sep s)).
    { apply IH. intros x Hf Hsep Hin. apply (H x Hf Hsep). now right. }
    destruct (sep c) eqn:Hc.
    + constructor; [reflexivity | exact IH'].
    + destruct (split_each sep s) as [|h t]; simpl.
      * constructor; [|constructor]. simpl.
        destruct (f c) eqn:Hf; [|reflexivity].
        exfalso. apply (H c Hf Hc). now left.
      * inversion IH' as [|? ? Hh Ht]; subst.
        constructor; [|exact Ht]. simpl. rewrite Hh.
        destruct (f c) eqn:Hf; [|reflexivity].
        exfalso. apply (H c Hf Hc). now left.
Qed.




Lemma filter_map_strip (l : list str) :
  map strip (filter (fun x => negb (is_empty (strip x))) l)
  = filter (fun x => negb (is_empty x)) (map strip l).
Proof.
  induction l as [|x l IH]; simpl; [reflexivity|].
  destruct (is_empty (strip x)); simpl; now rewrite IH.
Qed.

(** ** extract.py: keywords *)

Lemma findall_from_Forall (m : option char -> str -> option nat)
  (P : str -> Prop) :
  (forall prev s n, m prev s = Some n -> P (firstn n s)) ->
  forall s prev skip, Forall P (findall_from m prev s skip).
Proof.
  intros Hm. induction s as [|c s IH]; intros prev skip; simpl.
  - constructor.
  - destruct skip as [|k]; [|apply IH].
    destruct (m prev (c :: s)) as [[|n]|] eqn:E; try apply IH.
    constructor; [|apply IH].
    exact (Hm _ _ _ E).
Qed.

Lemma firstn_take_while (p : char -> bool) (s : str) (n : nat) :
  n <= length (take_while p s) ->
  forallb p (firstn n s) = true /\ length (firstn n s) = n.
Proof.
  revert n. induction s as [|c s IH]; intros n; simpl.
  - intros H. assert (n = 0) by lia. subst. now split.
  - destruct n as [|n]; [now split|].
    destruct (p c) eqn:Hc; simpl; [|lia].
    intros H. destruct (IH n) as [H1 H2]; [lia|].
    rewrite Hc, H1, H2. now split.
Qed.

Lemma backtrack_range (lo : nat) (s : str) (k n : nat) :
  backtrack lo s k = Some n -> lo <= n <= k.
Proof.
  induction k as [|k IH]; [discriminate|].
  change (backtrack lo s (S k))
    with (if S k <? lo then None
          else if boundary (nth_error s k) (nth_error s (S k))
               then Some (S k)
               else backtrack lo s k).
  destruct (S k <? lo) eqn:E; [discriminate|].
  apply Nat.ltb_ge in E.
  destruct (boundary _ _).
  - intros [= <-]. lia.
  - intros H. apply IH in H. lia.
Qed.

Lemma match_letters_token (prev : option char) (s : str) (n : nat) :
  match_letters 2 (Some 15) prev s = Some n ->
  forallb is_ascii_letter (firstn n s) = true /\
  2 <= length (firstn n s) <= 15.
Proof.
  unfold match_letters.
  destruct (boundary prev (hd_error s)); [|discriminate].
  intros H. apply backtrack_range in H.
  destruct (firstn_take_while is_ascii_letter s n) as [H1 H2]; [lia|].
  rewrite H2. split; [exact H1 | lia].
Qed.

Lemma match_digits_token (prev : option char) (s : str) (n : nat) :
  match_digits prev s = Some n ->
  forallb is_digit (firstn n s) = true /\ 1 <= length (firstn n s).
Proof.
  unfold match_digits.
  destruct (length (take_while is_digit s)) as [|k] eqn:E; [discriminate|].
  intros [= <-].
  destruct (firstn_take_while is_digit s (S k)) as [H1 H2]; [lia|].
  rewrite H2. split; [exact H1 | lia].
Qed.

Lemma fallback_keywords_unfold (text : str) :
  let words := findall (match_letters 2 (Some 15)) text in
  let numbers := findall match_digits text in
  fallback_keywords text
  = if is_empty words && is_empty numbers then [firstn 30 text]
    else firstn 6 words ++ firstn 3 numbers.
Proof.
  cbv zeta. unfold fallback_keywords.
  set (words := findall (match_letters 2 (Some 15)) text).
  set (numbers := findall match_digits text).
  assert (Hlen : length (firstn 6 words ++ firstn 3 numbers) <= 10).
  { rewrite length_app, !length_firstn. lia. }
  rewrite (firstn_all2 _ Hlen).
  destruct words as [|x xs]; [|reflexivity].
  destruct numbers as [|y ys]; reflexivity.
Qed.

(** ** extract.py: core question *)

Lemma extract_question_with_llm_run (text : str) (w : World) :
  exists core_q w',
    extract_question_with_llm text w
    = (Ok core_q,
       if length text <? 20 then []
       else [EGenerate [CoreQuestionPrompt text]],
       w').
Proof.
  unfold extract_question_with_llm.
  destruct (length text <? 20); [unfold ret; eauto|].
  unfold try_except, bind, call_generate, ret, raise.
  destruct (generate w [CoreQuestionPrompt text]) as [[[|first rest]|] w1];
    try (cbv beta iota; eauto).
  destruct (length (clean_core_question first) <? 3); cbv beta iota; eauto.
Qed.

Lemma last_sentence_unfold (text : str) :
  last_sentence text
  = last (filter (fun s => negb (is_empty s))
            (map strip (split_each (in_chars (lit ".?!")) text)))
         text.
Proof.
  unfold last_sentence. rewrite filter_map_strip.
  destruct (filter _ _); reflexivity.
Qed.

(** ** extract.py: keywords from the generator *)

Lemma split_runs_from_head (sep : char -> bool) (s : str) :
  exists rest,
    split_runs_from sep false s
    = take_while (fun x => negb (sep x)) s :: rest.
Proof.
  induction s as [|c s [rest IH]]; simpl.
  - eauto.
  - destruct (sep c); simpl; [eauto|].
    rewrite IH. simpl. eauto.
Qed.

Lemma take_while_empty (p : char -> bool) (s : str) :
  take_while p s = [] -> starts_in p s = false.
Proof.
  destruct s as [|c s]; simpl; [reflexivity|].
  destruct (p c); [discriminate | reflexivity].
Qed.

Lemma starts_in_take_while (p : char -> bool) (s : str) :
  starts_in p s = false -> take_while p s = [].
Proof.
  destruct s as [|c s]; simpl; [reflexivity|].
  now intros ->.
Qed.

Lemma short_pieces_not_crowded (sep : char -> bool) (s : str) (b : bool) :
  Forall (fun piece => length piece <= 1) (split_runs_from sep b s) ->
  crowded sep s = false.
Proof.
  revert b. induction s as [|c s IH]; intros b; simpl; [reflexivity|].
  destruct (sep c) eqn:Hc; simpl.
  - destruct b; intros H.
    + exact (IH true H).
    + inversion H; subst. now apply (IH true).
  - destruct (split_runs_from_head sep s) as [rest E]. rewrite E. simpl.
    intros H. inversion H as [|? ? Hh Ht]; subst. simpl in Hh.
    assert (Hnil : take_while (fun x => negb (sep x)) s = []).
    { destruct (take_while _ s); [reflexivity | simpl in Hh; lia]. }
    rewrite (take_while_empty _ _ Hnil). simpl.
    apply (IH false). rewrite E, Hnil.
    constructor; [simpl; lia | exact Ht].
Qed.

Lemma not_crowded_short_pieces (sep : char -> bool) (s : str) (b : bool) :
  crowded sep s = false ->
  Forall (fun piece => length piece <= 1) (split_runs_from sep b s).
Proof.
  revert b. induction s as [|c s IH]; intros b; simpl.
  - intros _. constructor; [simpl; lia | constructor].
  - intros H. apply orb_false_elim in H. destruct H as [Hc Hs].
    destruct (sep c) eqn:E.
    + destruct b; [exact (IH true Hs)|].
      constructor; [simpl; lia | exact (IH true Hs)].
    + simpl in Hc.
      specialize (IH false Hs).
      destruct (split_runs_from_head sep s) as [rest Er].
      rewrite Er in IH |- *.
      rewrite (starts_in_take_while _ _ Hc) in IH |- *. simpl.
      inversion IH; subst.
      constructor; [simpl; lia | assumption].
Qed.

Lemma crowded_tail (sep : char -> bool) (c : char) (s : str) :
  crowded sep (c :: s) = false -> crowded sep s = false.
Proof.
  simpl. intros H. apply orb_false_elim in H. exact (proj2 H).
Qed.

Lemma crowded_lstrip_by (sep p : char -> bool) (s : str) :
  crowded sep s = false -> crowded sep (lstrip_by p s) = false.
Proof.
  induction s as [|c s IH]; intros H; [reflexivity|].
  simpl. destruct (p c); [|exact H].
  apply IH. exact (crowded_tail _ _ _ H).
Qed.

Lemma rstrip_by_head (p : char -> bool) (s : str) (x : char) (r : str) :
  rstrip_by p s = x :: r -> exists s', s = x :: s'.
Proof.
  destruct s as [|c s]; simpl; [discriminate|].
  destruct (rstrip_by p s); [destruct (p c)|]; intros [= <- _]; eauto.
Qed.

Lemma crowded_rstrip_by (sep p : char -> bool) (s : str) :
  crowded sep s = false -> crowded sep (rstrip_by p s) = false.
Proof.
  induction s as [|c s IH]; intros H; [reflexivity|].
  pose proof (IH (crowded_tail _ _ _ H)) as IH'.
  simpl in H. apply orb_false_elim in H. destruct H as [Hc _].
  simpl.
  destruct (rstrip_by p s) as [|x r] eqn:E.
  - destruct (p c); simpl; [reflexivity|].
    now rewrite andb_false_r.
  - destruct (rstrip_by_head _ _ _ _ E) as [s' ->].
    change (crowded sep (c :: x :: r))
      with ((negb (sep c) && negb (sep x)) || crowded sep (x :: r)).
    simpl in Hc. now rewrite Hc, IH'.
Qed.

Lemma crowded_strip (sep : char -> bool) (s : str) :
  crowded sep s = false -> crowded sep (strip s) = false.
Proof.
  intros H. unfold strip, strip_by.
  apply crowded_rstrip_by, crowded_lstrip_by. exact H.
Qed.

Lemma not_crowded_startswith (sep : char -> bool) (s p : str) (x y : char) :
  crowded sep s = false ->
  sep x = false -> sep y = false ->
  startswith s (x :: y :: p) = false.
Proof.
  intros H Hx Hy.
  destruct s as [|a [|b s]]; simpl; [reflexivity | apply andb_false_r |].
  destruct (N.eqb a x) eqn:Ea; [|reflexivity].
  destruct (N.eqb b y) eqn:Eb; [|reflexivity].
  apply N.eqb_eq in Ea, Eb. subst a b.
  simpl in H. rewrite Hx, Hy in H. discriminate.
Qed.

Lemma strip_prefixes_fixed (prefixes : list str) (s : str) :
  Forall (fun prefix => startswith s prefix = false) prefixes ->
  strip_prefixes prefixes s = s.
Proof.
  unfold strip_prefixes.
  induction 1 as [|prefix prefixes Hp _ IH]; simpl; [reflexivity|].
  rewrite Hp. exact IH.
Qed.

Lemma parse_entities_short_tokens (output : str) :
  Forall (fun token => length token <= 1)
         (split_runs comma_or_space output) ->
  parse_entities output = [].
Proof.
  intros H. apply short_pieces_not_crowded in H.
  apply crowded_strip in H.
  unfold parse_entities.
  assert (Hfix : strip_prefixes entity_prefixes (strip output)
                 = strip output).
  { apply strip_prefixes_fixed.
    unfold entity_prefixes. cbn [map].
    repeat constructor;
      apply (not_crowded_startswith comma_or_space); auto. }
  rewrite Hfix.
  pose proof (not_crowded_short_pieces _ _ false H) as Hshort.
  fold (split_runs comma_or_space (strip output)) in Hshort.
  induction Hshort as [|e es He _ IH]; [reflexivity|].
  simpl. apply Nat.ltb_ge in He. rewrite He, andb_false_r.
  exact IH.
Qed.

Lemma extract_core_entities_run (text : str) (w : World) :
  exists entities w',
    extract_core_entities text w
    = (Ok entities,
       if length text <? 10 then [] else [EGenerate [KeywordPrompt text]],
       w').
Proof.
  unfold extract_core_entities.
  destruct (length text <? 10); [unfold ret; eauto|].
  unfold try_except, bind, call_generate, ret.
  destruct (generate w [KeywordPrompt text]) as [[[|first rest]|] w1];
    cbv beta iota; eauto.
Qed.

Lemma fallback_keywords_nonempty (text : str) :
  is_empty (fallback_keywords text) = false.
Proof.
  rewrite fallback_keywords_unfold.
  destruct (findall (match_letters 2 (Some 15)) text); [|reflexivity].
  destruct (findall match_digits text); reflexivity.
Qed.

(** ** mian.py: the answer and its single retry *)

Lemma needs_retry_iff (answer_text : str) :
  needs_retry answer_text = true <->
  length answer_text < 2 \/
  exists bad, In bad leakage /\ contains bad answer_text = true.
Proof.
  unfold needs_retry.
  rewrite orb_true_iff, Nat.ltb_lt, existsb_exists. reflexivity.
Qed.

Lemma answer_stage_run (context query : str) (w : World) :
  exists output_field events w',
    answer_stage context query w = (Ok output_field, events, w') /\
    writes events = [].
Proof.
  unfold answer_stage, try_except, bind, call_generate, lift, ret.
  destruct (generate w [AnswerPrompt context query])
    as [[[|first rest]|] w1]; cbv beta iota; eauto.
  destruct (clean_answer_total_bounded (strip first)) as [cleaned [-> _]].
  cbv beta iota.
  destruct (needs_retry cleaned); [|eauto].
  destruct (generate w1 _) as [[[|retry0 others]|] w2]; cbv beta iota; eauto.
  destruct (clean_answer_total_bounded retry0) as [final [-> _]].
  eauto.
Qed.

(** ** mian.py: decomposition *)

(** C10. For a text of at least 10 characters, when the generator
    answers the keyword request and every piece of its first output
    between runs of commas and whitespace has at most one character,
    [extract_core_entities] returns the empty list, not the fallback
    keywords (which are never empty), and the decomposition takes the
    core question as search query. *)
Theorem extract_core_entities_short_tokens
  (text first : str) (rest : list str) (w w1 : World) :
  10 <= length text ->
  generate w [KeywordPrompt text] = (Some (first :: rest), w1) ->
  Forall (fun token => length token <= 1)
         (split_runs comma_or_space first) ->
  extract_core_entities text w
  = (Ok [], [EGenerate [KeywordPrompt text]], w1) /\
  is_empty (fallback_keywords text) = false /\
  (forall (w0 : World) (core_q : str) (events : list Event),
      extract_question_with_llm text w0 = (Ok core_q, events, w) ->
      decompose_stage text w0
      = (Ok (mkDecomposition core_q [] core_q),
         events ++ [EGenerate [KeywordPrompt text]], w1)).
Proof.
  intros Hlen Hgen Hshort.
  assert (Hrun : extract_core_entities text w
                 = (Ok [], [EGenerate [KeywordPrompt text]], w1)).
  { unfold extract_core_entities.
    apply Nat.ltb_ge in Hlen. rewrite Hlen.
    unfold try_except, bind, call_generate, ret.
    rewrite Hgen. cbv beta iota.
    rewrite (parse_entities_short_tokens _ Hshort). reflexivity. }
  split; [exact Hrun|]. split; [apply fallback_keywords_nonempty|].
  intros w0 core_q events Hq.
  unfold decompose_stage, bind. rewrite Hq, Hrun.
  unfold ret. cbv beta iota. rewrite app_nil_r. reflexivity.
Qed.



Lemma decompose_stage_run (text : str) (w : World) :
  exists core_q w1 keywords w2,
    let events1 :=
      if length text <? 20 then []
      else [EGenerate [CoreQuestionPrompt text]] in
    let events2 :=
      if length text <? 10 then [] else [EGenerate [KeywordPrompt text]] in
    extract_question_with_llm text w = (Ok core_q, events1, w1) /\
    extract_core_entities text w1 = (Ok keywords, events2, w2) /\
    decompose_stage text w
    = (Ok (mkDecomposition core_q keywords
             (match keywords with
              | [] => core_q
              | _ :: _ => join (lit " ") keywords
              end)),
       events1 ++ events2, w2).
Proof.
  destruct (extract_question_with_llm_run text w) as [core_q [w1 H1]].
  destruct (extract_core_entities_run text w1) as [keywords [w2 H2]].
  exists core_q, w1, keywords, w2. cbv zeta.
  split; [exact H1|]. split; [exact H2|].
  unfold decompose_stage, bind. rewrite H1, H2.
  unfold ret. cbv beta iota. rewrite app_nil_r.
  destruct keywords; reflexivity.
Qed.


(** A sub-query request is what running [extract_core_querys] on a text
    of at least 10 characters shows in the trace. *)
Lemma extract_core_querys_requests (text : str) (w : World) :
  10 <= length text ->
  In (EGenerate [SubQueryPrompt text])
     (snd (fst (extract_core_querys text w))).
Proof.
  intros Hlen. unfold extract_core_querys.
  apply Nat.ltb_ge in Hlen. rewrite Hlen.
  unfold try_except, bind, call_generate, lift, ret.
  destruct (generate w [SubQueryPrompt text]) as [[[|first rest]|] w1];
    simpl; auto.
Qed.

(** ** mian.py: the output stream *)

Lemma writes_app (a b : list Event) : writes (a ++ b) = writes a ++ writes b.
Proof.
  induction a as [|[ps|q k|chunk] a IH]; simpl; auto.
  now rewrite IH.
Qed.

Lemma process_question_run (question_id : json_scalar) (text : str)
  (w : World) :
  exists output_field events w',
    process_question question_id text w = (Ok tt, events, w') /\
    writes events
    = [json_dumps_result_item question_id output_field ++ [10%N]].
Proof.
  destruct (decompose_stage_run text w)
    as [core_q [w1 [keywords [w2 [_ [_ Hd]]]]]].
  cbv zeta in Hd.
  unfold process_question, bind at 1. rewrite Hd. cbv beta iota.
  unfold bind at 1, call_web_search.
  cbn [search_query core_question].
  destruct (web_search w2 _ 10) as [references w3].
  unfold bind at 1.
  destruct (answer_stage_run
              (extract_relevant_sentences (aggregate references) text 2)
              core_q w3) as [output_field [events3 [w4 [Ha Hw]]]].
  rewrite Ha. unfold write.
  exists output_field. do 2 eexists. split; [reflexivity|].
  rewrite !writes_app, Hw.
  destruct (length text <? 20), (length text <? 10); reflexivity.
Qed.

(** The loop ends, and its writes are the records of the valid entries,
    one chunk each, in input order. *)
Lemma main_loop_run (questions : list entry) :
  forall (i : nat) (w : World),
  exists outputs events w',
    main_loop i questions w = (Ok tt, events, w') /\
    length outputs = length (valid_ids i questions) /\
    writes events
    = map (fun p => json_dumps_result_item (fst p) (snd p) ++ [10%N])
          (combine (valid_ids i questions) outputs).
Proof.
  induction questions as [|q rest IH]; intros i w.
  - exists [], [], w. repeat split.
  - destruct q as [|id [text|] expected]; cbn [main_loop valid_ids];
      try (exact (IH (S i) w)).
    set (question_id := match id with
                        | Some v => v
                        | None => JStr (lit "q_" ++ decimal_nat i)
                        end).
    destruct (process_question_run question_id text w)
      as [output_field [events1 [w1 [Hp Hw]]]].
    destruct (IH (S i) w1) as [outputs [events2 [w2 [Hl [Hlen Hws]]]]].
    exists (output_field :: outputs), (events1 ++ events2), w2.
    unfold bind. rewrite Hp, Hl.
    split; [reflexivity|]. split; [simpl; now rewrite Hlen|].
    rewrite writes_app, Hw, Hws. reflexivity.
Qed.

Lemma line_feeds_app (a b : str) :
  line_feeds (a ++ b) = line_feeds a + line_feeds b.
Proof.
  unfold line_feeds. now rewrite filter_app, length_app.
Qed.

Lemma hex_digit_not_line_feed (n : N) : N.eqb 10 (hex_digit n) = false.
Proof.
  unfold hex_digit. destruct (n <? 10)%N; apply N.eqb_neq; lia.
Qed.

Lemma json_escape_char_line_feeds (c : char) :
  line_feeds (json_escape_char c) = 0.
Proof.
  unfold json_escape_char.
  destruct (c =? 34)%N; [reflexivity|].
  destruct (c =? 92)%N; [reflexivity|].
  destruct (c =? 10)%N eqn:E10; [reflexivity|].
  destruct (c =? 13)%N; [reflexivity|].
  destruct (c =? 9)%N; [reflexivity|].
  destruct (c =? 8)%N; [reflexivity|].
  destruct (c =? 12)%N; [reflexivity|].
  destruct (c <? 32)%N.
  - rewrite line_feeds_app. unfold line_feeds at 2. cbn [filter].
    rewrite !hex_digit_not_line_feed. reflexivity.
  - unfold line_feeds. cbn [filter]. rewrite N.eqb_sym, E10. reflexivity.
Qed.

Lemma json_string_line_feeds (s : str) : line_feeds (json_string s) = 0.
Proof.
  unfold json_string. rewrite !line_feeds_app.
  assert (H : line_feeds (flat_map json_escape_char s) = 0).
  { induction s as [|c s IH]; [reflexivity|].
    simpl. now rewrite line_feeds_app, json_escape_char_line_feeds. }
  rewrite H. reflexivity.
Qed.

Lemma uint_line_feeds (d : Decimal.uint) :
  line_feeds (lit (NilEmpty.string_of_uint d)) = 0.
Proof.
  induction d; simpl; auto.
Qed.

Lemma decimal_Z_line_feeds (z : Z) : line_feeds (decimal_Z z) = 0.
Proof.
  unfold decimal_Z.
  destruct (Z.to_int z) as [d|d]; simpl.
  - destruct d; try apply uint_line_feeds; reflexivity.
  - destruct d; try apply uint_line_feeds; reflexivity.
Qed.

(** Whatever the identifier and the answer, a record takes four lines of
    the output file. *)
Lemma result_item_line_feeds (question_id : json_scalar) (output : str) :
  line_feeds (json_dumps_result_item question_id output ++ [10%N]) = 4.
Proof.
  unfold json_dumps_result_item.
  rewrite !line_feeds_app, !json_string_line_feeds.
  assert (H : line_feeds (json_scalar_dumps question_id) = 0).
  { destruct question_id as [|[|]|z|s]; try reflexivity.
    - apply decimal_Z_line_feeds.
    - apply json_string_line_feeds. }
  rewrite H. reflexivity.
Qed.

(** The run ends normally and writes one record per valid entry, in input
    order; every record takes four lines. *)
Lemma main_output_stream (questions : list entry) (w : World) :
  exists outputs events w',
    main questions w = (Ok tt, events, w') /\
    length outputs = length (valid_ids 0 questions) /\
    writes events
    = map (fun p => json_dumps_result_item (fst p) (snd p) ++ [10%N])
          (combine (valid_ids 0 questions) outputs) /\
    Forall (fun chunk => line_feeds chunk = 4) (writes events).
Proof.
  destruct (main_loop_run questions 0 w)
    as [outputs [events [w' [Hrun [Hlen Hw]]]]].
  exists outputs, events, w'.
  split; [exact Hrun|]. split; [exact Hlen|]. split; [exact Hw|].
  rewrite Hw. apply Forall_forall. intros chunk Hin.
  apply in_map_iff in Hin. destruct Hin as [[question_id output] [<- _]].
  apply result_item_line_feeds.
Qed.

(** * Further properties *)

(** ** Substrings *)

Lemma startswith_app (p r : str) : startswith (p ++ r) p = true.
Proof.
  induction p as [|x p IH]; simpl.
  - destruct r; reflexivity.
  - rewrite N.eqb_refl. exact IH.
Qed.

Lemma startswith_split (s p : str) :
  startswith s p = true -> exists r, s = p ++ r.
Proof.
  revert s. induction p as [|y p IH]; intros s; simpl.
  - intros _. exists s. reflexivity.
  - destruct s as [|x s]; [discriminate|].
    intros H. apply andb_true_iff in H. destruct H as [Hx Hs].
    apply N.eqb_eq in Hx. subst y.
    destruct (IH s Hs) as [r ->]. exists r. reflexivity.
Qed.

Lemma contains_unfold (sub s : str) :
  contains sub s
  = startswith s sub ||
    match s with
    | [] => false
    | _ :: s' => contains sub s'
    end.
Proof. destruct s; reflexivity. Qed.

Lemma contains_intro (a l r : str) : contains a (l ++ a ++ r) = true.
Proof.
  induction l as [|x l IH].
  - simpl app. rewrite contains_unfold, startswith_app. reflexivity.
  - change (contains a ((x :: l) ++ a ++ r))
      with (startswith (x :: l ++ a ++ r) a || contains a (l ++ a ++ r)).
    rewrite IH. apply orb_true_r.
Qed.

Lemma contains_elim (a b : str) :
  contains a b = true -> exists l r, b = l ++ a ++ r.
Proof.
  induction b as [|x b IH]; rewrite contains_unfold.
  - rewrite orb_false_r. intros H.
    destruct (startswith_split _ _ H) as [r ->]. exists [], r. reflexivity.
  - intros H. apply orb_true_iff in H. destruct H as [H|H].
    + destruct (startswith_split _ _ H) as [r ->]. exists [], r. reflexivity.
    + destruct (IH H) as [l [r ->]]. exists (x :: l), r. reflexivity.
Qed.

Lemma contains_refl (a : str) : contains a a = true.
Proof.
  pose proof (contains_intro a [] []) as H.
  simpl in H. rewrite app_nil_r in H. exact H.
Qed.

Lemma contains_trans (a b c : str) :
  contains a b = true -> contains b c = true -> contains a c = true.
Proof.
  intros Hab Hbc.
  destruct (contains_elim _ _ Hab) as [l1 [r1 ->]].
  destruct (contains_elim _ _ Hbc) as [l2 [r2 ->]].
  replace (l2 ++ (l1 ++ a ++ r1) ++ r2)
    with ((l2 ++ l1) ++ a ++ (r1 ++ r2))
    by (rewrite <- !app_assoc; reflexivity).
  apply contains_intro.
Qed.

Lemma contains_suffix (l s : str) : contains s (l ++ s) = true.
Proof.
  pose proof (contains_intro s l []) as H.
  rewrite app_nil_r in H. exact H.
Qed.

Lemma contains_prefix (s r : str) : contains s (s ++ r) = true.
Proof. exact (contains_intro s [] r). Qed.

Lemma lstrip_by_suffix (p : char -> bool) (s : str) :
  exists l, s = l ++ lstrip_by p s.
Proof.
  induction s as [|c s [l IH]]; simpl.
  - exists []. reflexivity.
  - destruct (p c).
    + exists (c :: l). simpl. now f_equal.
    + exists []. reflexivity.
Qed.

Lemma rstrip_by_prefix (p : char -> bool) (s : str) :
  exists r, s = rstrip_by p s ++ r.
Proof.
  induction s as [|c s [r IH]]; simpl.
  - exists []. reflexivity.
  - destruct (rstrip_by p s) as [|x t].
    + destruct (p c).
      * exists (c :: s). reflexivity.
      * exists s. reflexivity.
    + exists r. simpl. now f_equal.
Qed.

Lemma contains_strip_by (p : char -> bool) (s : str) :
  contains (strip_by p s) s = true.
Proof.
  unfold strip_by.
  destruct (lstrip_by_suffix p s) as [l Hl].
  destruct (rstrip_by_prefix p (lstrip_by p s)) as [r Hr].
  rewrite Hl at 2. rewrite Hr at 2. apply contains_intro.
Qed.

Lemma contains_firstn (n : nat) (s : str) : contains (firstn n s) s = true.
Proof.
  rewrite <- (firstn_skipn n s) at 2. apply contains_prefix.
Qed.

Lemma contains_skipn (n : nat) (s : str) : contains (skipn n s) s = true.
Proof.
  rewrite <- (firstn_skipn n s) at 2. apply contains_suffix.
Qed.

Lemma take_while_prefix (p : char -> bool) (s : str) :
  exists r, s = take_while p s ++ r.
Proof.
  induction s as [|c s [r IH]]; simpl.
  - exists []. reflexivity.
  - destruct (p c).
    + exists r. simpl. now f_equal.
    + exists (c :: s). reflexivity.
Qed.

Lemma split_once_cases (c : char) (s : str) :
  split_once c s = [s] \/
  exists b a, split_once c s = [b; a] /\ s = b ++ c :: a.
Proof.
  induction s as [|x s IH]; simpl.
  - left. reflexivity.
  - destruct (N.eqb x c) eqn:E.
    + apply N.eqb_eq in E. subst x. right. exists [], s. split; reflexivity.
    + destruct IH as [-> | [b [a [-> ->]]]].
      * left. reflexivity.
      * right. exists (x :: b), a. split; reflexivity.
Qed.

(** ** clean.py: what the normaliser keeps *)

Lemma strip_bad_start_contains (bads : list str) (answer : str) :
  contains (Clean.strip_bad_start bads answer) answer = true.
Proof.
  induction bads as [|bad bads IH]; simpl.
  - apply contains_refl.
  - destruct (startswith answer bad); [|exact IH].
    eapply contains_trans; [apply contains_strip_by | apply contains_skipn].
Qed.

Lemma colon_split_contains (answer r : str) :
  Clean.colon_split answer = Ok r -> contains r answer = true.
Proof.
  unfold Clean.colon_split.
  destruct (in_str Clean.colon answer);
    [|intros [= <-]; apply contains_refl].
  destruct (index Clean.colon answer) as [i|e]; [|discriminate].
  simpl. destruct (i <? 15); [|intros [= <-]; apply contains_refl].
  destruct (split_once_cases Clean.colon answer) as [E | [b [a [E Hs]]]];
    rewrite E; unfold getitem_last; simpl; intros [= <-].
  - apply contains_strip_by.
  - eapply contains_trans; [apply contains_strip_by|].
    rewrite Hs.
    replace (b ++ Clean.colon :: a) with ((b ++ [Clean.colon]) ++ a)
      by (rewrite <- app_assoc; reflexivity).
    apply contains_suffix.
Qed.

Lemma first_clause_contains (ds answer r : str) :
  Clean.first_clause ds answer = Ok r -> contains r answer = true.
Proof.
  induction ds as [|d ds IH]; simpl.
  - intros [= <-]. apply contains_refl.
  - destruct (in_str d answer); [|exact IH].
    destruct (split_each_head (N.eqb d) answer) as [rest ->].
    unfold getitem. simpl.
    destruct (2 <? _); [|exact IH].
    intros [= <-].
    eapply contains_trans; [apply contains_strip_by|].
    destruct (take_while_prefix (fun x => negb (N.eqb d x)) answer)
      as [t Ht].
    rewrite Ht at 2. apply contains_prefix.
Qed.

(** X1. The normaliser only cuts: whatever it returns occurs in its input
    as a contiguous substring. *)
Theorem clean_answer_is_substring (s : str) :
  exists r, Clean.clean_answer_aggressive s = Ok r /\ contains r s = true.
Proof.
  unfold Clean.clean_answer_aggressive.
  destruct s as [|c s]; [exists []; split; reflexivity|].
  cbv beta iota delta [is_empty].
  set (a0 := Clean.strip_bad_start Clean.bad_starts (c :: s)).
  assert (H0 : contains a0 (c :: s) = true)
    by apply strip_bad_start_contains.
  destruct (colon_split_total a0) as [a1 E1]. rewrite E1.
  assert (H1 := colon_split_contains _ _ E1).
  cbv beta iota delta [rbind].
  set (a2 := strip_by (in_chars Clean.quotes) a1).
  assert (H2 : contains a2 a1 = true) by apply contains_strip_by.
  destruct (first_clause_total Clean.delimiters a2) as [a3 E3]. rewrite E3.
  assert (H3 := first_clause_contains _ _ _ E3).
  cbv beta iota.
  set (a4 := rstrip_by (in_chars Clean.trailing_punct) a3).
  assert (H4 : contains a4 a3 = true).
  { destruct (rstrip_by_prefix (in_chars Clean.trailing_punct) a3) as [t Ht].
    fold a4 in Ht. rewrite Ht at 1. apply contains_prefix. }
  set (a5 := if 30 <? length a4 then firstn 30 a4 else a4).
  assert (H5 : contains a5 a4 = true).
  { subst a5. destruct (30 <? length a4);
      [apply contains_firstn | apply contains_refl]. }
  assert (H6 : contains (strip a5) a5 = true) by apply contains_strip_by.
  destruct (strip a5) as [|x r] eqn:E6.
  - eexists. split; [reflexivity|]. apply contains_firstn.
  - eexists. split; [reflexivity|].
    apply (contains_trans _ a5); [exact H6|].
    apply (contains_trans _ a4); [exact H5|].
    apply (contains_trans _ a3); [exact H4|].
    apply (contains_trans _ a2); [exact H3|].
    apply (contains_trans _ a1); [exact H2|].
    apply (contains_trans _ a0); [exact H1 | exact H0].
Qed.

Lemma lstrip_by_starts (p : char -> bool) (s : str) :
  starts_in p (lstrip_by p s) = false.
Proof.
  induction s as [|c s IH]; simpl; [reflexivity|].
  destruct (p c) eqn:E; [exact IH | simpl; exact E].
Qed.

Lemma rstrip_by_ends (p : char -> bool) (s : str) :
  ends_in p (rstrip_by p s) = false.
Proof.
  induction s as [|c s IH]; simpl; [reflexivity|].
  destruct (rstrip_by p s) as [|x r].
  - destruct (p c) eqn:E; simpl; [reflexivity | exact E].
  - exact IH.
Qed.

Lemma rstrip_by_starts (p : char -> bool) (s : str) :
  starts_in p s = false -> starts_in p (rstrip_by p s) = false.
Proof.
  destruct s as [|c s]; simpl; [reflexivity|].
  intros H. destruct (rstrip_by p s); [rewrite H|]; simpl; auto.
Qed.

Lemma strip_not_padded (s : str) : padded (strip s) = false.
Proof.
  unfold padded, strip, strip_by.
  rewrite rstrip_by_starts by apply lstrip_by_starts.
  rewrite rstrip_by_ends. reflexivity.
Qed.

(** X3. First match wins in the list of lead-ins: [The] stands before
    [The answer is], so an answer that starts with [The answer is] only
    loses [The]. *)
Theorem strip_bad_start_the_answer_is (answer : str) :
  startswith answer (lit "The answer is") = true ->
  Clean.strip_bad_start Clean.bad_starts answer = strip (skipn 3 answer).
Proof.
  intros H. destruct (startswith_split _ _ H) as [rest ->].
  reflexivity.
Qed.

(** ** extract.py: shapes of what the routines return *)

Lemma Forall_firstn_keep {A} (P : A -> Prop) (n : nat) (l : list A) :
  Forall P l -> Forall P (firstn n l).
Proof.
  intros H. revert n. induction H as [|x l Hx _ IH]; intros [|n]; simpl;
    constructor; auto.
Qed.

Lemma split_runs_from_pieces (sep : char -> bool) (s : str) (b : bool) :
  Forall (fun piece => existsb sep piece = false) (split_runs_from sep b s).
Proof.
  revert b. induction s as [|c s IH]; intros b; simpl.
  - repeat constructor.
  - destruct (sep c) eqn:E.
    + destruct b; [apply IH|]. constructor; [reflexivity | apply IH].
    + specialize (IH false).
      destruct (split_runs_from sep false s) as [|h t]; simpl.
      * constructor; [simpl; rewrite E; reflexivity | constructor].
      * inversion IH as [|? ? Hh Ht]; subst.
        constructor; [simpl; rewrite E; exact Hh | exact Ht].
Qed.

Lemma existsb_false_edges (p : char -> bool) (s : str) :
  existsb p s = false -> starts_in p s = false /\ ends_in p s = false.
Proof.
  induction s as [|c s IH]; simpl; [auto|].
  intros H. apply orb_false_elim in H. destruct H as [Hc Hs].
  split; [exact Hc|].
  destruct s as [|c' s']; [exact Hc | exact (proj2 (IH Hs))].
Qed.

Lemma strip_without_space (e : str) :
  existsb is_space e = false -> strip e = e.
Proof.
  intros H. destruct (existsb_false_edges _ _ H) as [H1 H2].
  exact (strip_by_fixed _ _ H1 H2).
Qed.

Lemma comma_or_space_free (e : str) :
  existsb comma_or_space e = false -> existsb is_space e = false.
Proof.
  induction e as [|c e IH]; simpl; [reflexivity|].
  intros H. apply orb_false_elim in H. destruct H as [Hc He].
  unfold comma_or_space in Hc. apply orb_false_elim in Hc.
  rewrite (proj2 Hc), (IH He). reflexivity.
Qed.

Lemma parse_entities_shape (output : str) :
  length (parse_entities output) <= 10 /\
  Forall (fun e => 2 <= length e /\ existsb comma_or_space e = false)
         (parse_entities output).
Proof.
  unfold parse_entities. split.
  - rewrite length_firstn. apply Nat.le_min_l.
  - apply Forall_firstn_keep.
    set (s := strip_prefixes entity_prefixes (strip output)).
    pose proof (split_runs_from_pieces comma_or_space s false) as H.
    fold (split_runs comma_or_space s) in H.
    induction H as [|e es He _ IH]; simpl; [constructor|].
    destruct (is_empty (strip e)); simpl; [exact IH|].
    destruct (1 <? length e) eqn:El; simpl; [|exact IH].
    constructor; [|exact IH].
    rewrite (strip_without_space e (comma_or_space_free e He)).
    apply Nat.ltb_lt in El. split; [lia | exact He].
Qed.

(** X4. On the generator path (text of at least 10 characters, first
    output [first]) the keywords are at most 10, each has at least two
    characters, and none contains a comma or a whitespace character. *)
Theorem extract_core_entities_generated_shape
  (text first : str) (rest : list str) (w w1 : World) :
  10 <= length text ->
  generate w [KeywordPrompt text] = (Some (first :: rest), w1) ->
  exists keywords,
    extract_core_entities text w
    = (Ok keywords, [EGenerate [KeywordPrompt text]], w1) /\
    length keywords <= 10 /\
    Forall (fun e => 2 <= length e /\ existsb comma_or_space e = false)
           keywords.
Proof.
  intros Hlen Hgen. exists (parse_entities first).
  split; [|apply parse_entities_shape].
  unfold extract_core_entities.
  apply Nat.ltb_ge in Hlen. rewrite Hlen.
  unfold try_except, bind, call_generate, ret.
  rewrite Hgen. reflexivity.
Qed.

Lemma extract_core_querys_run (text : str) (w : World) :
  exists queries w',
    extract_core_querys text w
    = (Ok queries,
       if length text <? 10 then [] else [EGenerate [SubQueryPrompt text]],
       w').
Proof.
  unfold extract_core_querys.
  destruct (length text <? 10); [unfold ret; eauto|].
  unfold try_except, bind, call_generate, lift, ret.
  destruct (generate w [SubQueryPrompt text]) as [[[|first rest]|] w1];
    cbv beta iota; simpl; eauto.
Qed.

(** X6. [extract_core_querys] falls back to the text as the only query
    when the generator raises and also when it returns no output at all
    (the [IndexError] of [result[0]] is caught like any other
    exception). *)
Theorem extract_core_querys_fallback (text : str) (w w1 : World) :
  10 <= length text ->
  generate w [SubQueryPrompt text] = (None, w1) \/
  generate w [SubQueryPrompt text] = (Some [], w1) ->
  extract_core_querys text w
  = (Ok [text], [EGenerate [SubQueryPrompt text]], w1).
Proof.
  intros Hlen Hgen. unfold extract_core_querys.
  apply Nat.ltb_ge in Hlen. rewrite Hlen.
  unfold try_except, bind, call_generate, lift, ret.
  destruct Hgen as [-> | ->]; reflexivity.
Qed.

Lemma last_Forall {A} (P : A -> Prop) (l : list A) (d : A) :
  l <> [] -> Forall P l -> P (last l d).
Proof.
  intros Hne H. induction H as [|x l Hx Hl IH]; [contradiction|].
  destruct l as [|y l']; [exact Hx|].
  change (last (x :: y :: l') d) with (last (y :: l') d).
  apply IH. discriminate.
Qed.

Lemma last_sentence_cases (text : str) :
  last_sentence text = text \/
  (is_empty (last_sentence text) = false /\
   padded (last_sentence text) = false /\
   existsb (in_chars (lit ".?!")) (last_sentence text) = false).
Proof.
  unfold last_sentence.
  set (sep := in_chars (lit ".?!")).
  set (sentences := map strip (filter _ (split_each sep text))).
  assert (Hall : Forall (fun r => is_empty r = false /\ padded r = false /\
                                  existsb sep r = false) sentences).
  { subst sentences.
    assert (Hseg : Forall (fun seg => existsb sep seg = false)
                          (split_each sep text)).
    { apply split_each_segments. intros c Hf Hs _. congruence. }
    induction Hseg as [|seg segs Hs _ IH]; simpl; [constructor|].
    destruct (is_empty (strip seg)) eqn:Es; simpl; [exact IH|].
    constructor; [|exact IH].
    split; [exact Es|]. split; [apply strip_not_padded|].
    apply existsb_strip. exact Hs. }
  destruct sentences as [|x l] eqn:E; [left; reflexivity|]. right.
  change (is_empty (x :: l)) with false. cbv iota.
  exact (last_Forall
           (fun r => is_empty r = false /\ padded r = false /\
                     existsb sep r = false)
           (x :: l) text ltac:(discriminate) Hall).
Qed.

(** X7. The fallback of [extract_question_with_llm] is the text itself
    or a segment that is not empty, has no whitespace at either end and
    contains none of [.], [?], [!]. *)
Theorem last_sentence_shape (text : str) :
  last_sentence text = text \/
  (is_empty (last_sentence text) = false /\
   padded (last_sentence text) = false /\
   existsb (in_chars (lit ".?!")) (last_sentence text) = false).
Proof.
  destruct (last_sentence_cases text) as [H | [H1 [H2 H3]]].
  - left. exact H.
  - right. split; [exact H1|]. split; [exact H2 | exact H3].
Qed.

Lemma last_sentence_nonempty (text : str) :
  is_empty text = false -> is_empty (last_sentence text) = false.
Proof.
  intros H. destruct (last_sentence_cases text) as [-> | [Hne _]]; assumption.
Qed.

Lemma core_question_nonempty (text : str) (w : World) :
  exists core_q events w',
    extract_question_with_llm text w = (Ok core_q, events, w') /\
    is_empty core_q = is_empty text.
Proof.
  unfold extract_question_with_llm.
  destruct (length text <? 20) eqn:Hlen.
  - unfold ret. do 3 eexists. split; reflexivity.
  - assert (Hne : is_empty text = false).
    { apply Nat.ltb_ge in Hlen. destruct text; [simpl in Hlen; lia|].
      reflexivity. }
    rewrite Hne.
    pose proof (last_sentence_nonempty text Hne) as Hlast.
    unfold try_except, bind, call_generate, ret, raise.
    destruct (generate w [CoreQuestionPrompt text])
      as [[[|first rest]|] w1]; cbv beta iota;
      try (do 3 eexists; split; [reflexivity | exact Hlast]).
    destruct (length (clean_core_question first) <? 3) eqn:E; cbv beta iota.
    + do 3 eexists. split; [reflexivity | exact Hlast].
    + do 3 eexists. split; [reflexivity|].
      apply Nat.ltb_ge in E.
      destruct (clean_core_question first); [simpl in E; lia | reflexivity].
Qed.

(** X8. The core question is empty only for an empty question text,
    whatever the generator answers. *)
Theorem extract_question_with_llm_nonempty (text : str) (w : World) :
  exists core_q events w',
    extract_question_with_llm text w = (Ok core_q, events, w') /\
    is_empty core_q = is_empty text.
Proof.
  destruct (core_question_nonempty text w) as [core_q [events [w' [H1 H2]]]].
  exists core_q, events, w'. split; [exact H1 | exact H2].
Qed.

Lemma findall_from_substrings (m : option char -> str -> option nat)
  (s : str) :
  forall (pre : str) (prev : option char) (skip : nat),
    Forall (fun k => contains k (pre ++ s) = true)
           (findall_from m prev s skip).
Proof.
  induction s as [|c s IH]; intros pre prev skip; simpl.
  - constructor.
  - assert (Hrec : forall p k,
               Forall (fun x => contains x (pre ++ c :: s) = true)
                      (findall_from m p s k)).
    { intros p k. specialize (IH (pre ++ [c]) p k).
      rewrite <- app_assoc in IH. exact IH. }
    destruct skip as [|k]; [|apply Hrec].
    destruct (m prev (c :: s)) as [[|n]|]; try apply Hrec.
    constructor; [|apply Hrec].
    pose proof (contains_intro (firstn (S n) (c :: s)) pre
                  (skipn (S n) (c :: s))) as H.
    rewrite (firstn_skipn (S n) (c :: s)) in H. exact H.
Qed.

(** X9. Every fallback keyword occurs in the text as a contiguous
    substring. *)
Theorem fallback_keywords_from_text (text : str) :
  Forall (fun k => contains k text = true) (fallback_keywords text).
Proof.
  unfold fallback_keywords.
  set (words := findall (match_letters 2 (Some 15)) text).
  set (numbers := findall match_digits text).
  assert (Hw : Forall (fun k => contains k text = true) words)
    by apply (findall_from_substrings _ text []).
  assert (Hn : Forall (fun k => contains k text = true) numbers)
    by apply (findall_from_substrings _ text []).
  destruct (is_empty (firstn 6 words ++ firstn 3 numbers)).
  - constructor; [apply contains_firstn | constructor].
  - apply Forall_firstn_keep, Forall_app.
    split; apply Forall_firstn_keep; assumption.
Qed.

(** ** extract.py: which sentences are returned *)

Lemma extract_relevant_sentences_unfold (documents : list str)
  (question : str) (max_sentences : Z) :
  extract_relevant_sentences documents question max_sentences
  = if is_empty documents then []
    else if is_empty (collect_sentences documents) then
      match documents with
      | first :: _ => firstn 200 first
      | [] => []
      end
    else
      let top_sentences :=
        map snd
          (filter (fun p => 0 <? fst p)
             (slice_to max_sentences
                (rank_sentences (word_set question)
                                (collect_sentences documents)))) in
      if is_empty top_sentences
      then join [10%N] (firstn 2 (collect_sentences documents))
      else join [10%N] top_sentences.
Proof. reflexivity. Qed.

Lemma split_runs_from_lengths (sep : char -> bool) (s : str) (b : bool) :
  Forall (fun piece => length piece <= length s) (split_runs_from sep b s).
Proof.
  revert b. induction s as [|c s IH]; intros b; simpl.
  - repeat constructor.
  - assert (Hw : forall b', Forall (fun piece => length piece <= S (length s))
                                   (split_runs_from sep b' s)).
    { intros b'. eapply Forall_impl; [|apply (IH b')].
      intros piece H. simpl in H. lia. }
    destruct (sep c).
    + destruct b; [apply Hw|]. constructor; [simpl; lia | apply Hw].
    + specialize (IH false).
      destruct (split_runs_from sep false s) as [|h t]; simpl.
      * constructor; [simpl; lia | constructor].
      * inversion IH as [|? ? Hh Ht]; subst.
        constructor; [simpl; lia|].
        eapply Forall_impl; [|exact Ht]. intros piece H. simpl in H. lia.
Qed.

Lemma collect_sentences_short (documents : list str) :
  Forall (fun doc => length doc <= 10) documents ->
  collect_sentences documents = [].
Proof.
  unfold collect_sentences.
  induction 1 as [|doc docs Hd _ IH]; simpl; [reflexivity|].
  rewrite IH, app_nil_r.
  pose proof (split_runs_from_lengths sentence_end doc false) as Hl.
  fold (split_runs sentence_end doc) in Hl.
  induction Hl as [|piece pieces Hp _ IHp]; simpl; [reflexivity|].
  assert (E : (10 <? length (strip piece)) = false).
  { apply Nat.ltb_ge. pose proof (strip_length piece). lia. }
  rewrite E. exact IHp.
Qed.

(** X10. When no document is longer than 10 characters, nothing is
    split or scored: the first document is returned as it is, whatever
    the question and the cap. *)
Theorem extract_relevant_sentences_short_documents
  (first : str) (others : list str) (question : str) (max_sentences : Z) :
  Forall (fun doc => length doc <= 10) (first :: others) ->
  extract_relevant_sentences (first :: others) question max_sentences
  = first.
Proof.
  intros H. rewrite extract_relevant_sentences_unfold.
  rewrite (collect_sentences_short _ H).
  cbv beta iota delta [is_empty].
  inversion H; subst. apply firstn_all2. lia.
Qed.

Lemma insert_desc_In (x y : nat * str) (l : list (nat * str)) :
  In x (insert_desc y l) <-> x = y \/ In x l.
Proof.
  induction l as [|z l IH]; simpl.
  - split; intros [H|H]; auto.
  - destruct (fst z <=? fst y); simpl.
    + split; intros [H|H]; auto.
    + rewrite IH. split; intros [H|[H|H]]; auto.
Qed.

Lemma sort_desc_In (x : nat * str) (l : list (nat * str)) :
  In x (sort_desc l) <-> In x l.
Proof.
  induction l as [|y l IH]; simpl; [reflexivity|].
  rewrite insert_desc_In, IH. split; intros [H|H]; auto.
Qed.

Lemma In_firstn_keep {A} (x : A) (n : nat) (l : list A) :
  In x (firstn n l) -> In x l.
Proof.
  intros H. rewrite <- (firstn_skipn n l). apply in_or_app. now left.
Qed.

Lemma In_slice_to {A} (x : A) (k : Z) (l : list A) :
  In x (slice_to k l) -> In x l.
Proof.
  unfold slice_to. destruct (k <? 0)%Z; apply In_firstn_keep.
Qed.

Lemma rank_sentences_without_keywords (all_sentences : list str)
  (p : nat * str) :
  In p (rank_sentences [] all_sentences) -> fst p = 0.
Proof.
  unfold rank_sentences. rewrite sort_desc_In, in_map_iff.
  intros [sent [<- _]]. reflexivity.
Qed.

Lemma filter_nothing {A} (f : A -> bool) (l : list A) :
  (forall x, In x l -> f x = false) -> filter f l = [].
Proof.
  induction l as [|x l IH]; simpl; intros H; [reflexivity|].
  rewrite (H x) by now left. apply IH. intros y Hy. apply H. now right.
Qed.

(** X11. When the question has no run of two or more Latin letters, or
    when the cap is 0, no sentence is selected by score and the first
    two collected sentences are returned: this fallback ignores the
    cap. *)
Theorem extract_relevant_sentences_unscored
  (documents : list str) (question : str) (max_sentences : Z) :
  is_empty (collect_sentences documents) = false ->
  word_set question = [] \/ max_sentences = 0%Z ->
  extract_relevant_sentences documents question max_sentences
  = join [10%N] (firstn 2 (collect_sentences documents)).
Proof.
  intros Hne Hcase. rewrite extract_relevant_sentences_unfold.
  destruct documents as [|doc docs]; [discriminate Hne|].
  change (is_empty (doc :: docs)) with false. cbv iota.
  rewrite Hne. cbv zeta.
  assert (E : filter (fun p : nat * str => 0 <? fst p)
                (slice_to max_sentences
                   (rank_sentences (word_set question)
                      (collect_sentences (doc :: docs)))) = []).
  { destruct Hcase as [-> | ->]; [|reflexivity].
    apply filter_nothing. intros p Hp. apply In_slice_to in Hp.
    rewrite (rank_sentences_without_keywords _ _ Hp). reflexivity. }
  rewrite E. reflexivity.
Qed.

Lemma insert_desc_sorted (x : nat * str) (l : list (nat * str)) :
  StronglySorted (fun a b => fst b <= fst a) l ->
  StronglySorted (fun a b => fst b <= fst a) (insert_desc x l).
Proof.
  induction 1 as [|y l Hl IH Hy]; simpl.
  - constructor; constructor.
  - destruct (fst y <=? fst x) eqn:E.
    + apply Nat.leb_le in E.
      constructor; [constructor; assumption|].
      constructor; [exact E|].
      eapply Forall_impl; [|exact Hy]. intros z Hz. simpl in Hz. lia.
    + apply Nat.leb_gt in E.
      constructor; [exact IH|].
      apply Forall_forall. intros z Hz. apply insert_desc_In in Hz.
      destruct Hz as [-> | Hz]; [lia|].
      rewrite Forall_forall in Hy. exact (Hy z Hz).
Qed.

Lemma sort_desc_sorted (l : list (nat * str)) :
  StronglySorted (fun a b => fst b <= fst a) (sort_desc l).
Proof.
  induction l as [|x l IH]; simpl; [constructor|].
  apply insert_desc_sorted, IH.
Qed.

Lemma StronglySorted_firstn_keep {A} (R : A -> A -> Prop) (n : nat)
  (l : list A) :
  StronglySorted R l -> StronglySorted R (firstn n l).
Proof.
  intros H. revert n. induction H as [|x l Hl IH Hx]; intros [|n]; simpl;
    try constructor.
  - apply IH.
  - apply Forall_firstn_keep, Hx.
Qed.

Lemma StronglySorted_filter_keep {A} (R : A -> A -> Prop) (f : A -> bool)
  (l : list A) :
  StronglySorted R l -> StronglySorted R (filter f l).
Proof.
  induction 1 as [|x l Hl IH Hx]; simpl; [constructor|].
  destruct (f x); [|exact IH].
  constructor; [exact IH|].
  apply Forall_forall. intros y Hy. apply filter_In in Hy.
  rewrite Forall_forall in Hx. exact (Hx y (proj1 Hy)).
Qed.

Lemma StronglySorted_app_sides {A} (R : A -> A -> Prop) (a b : list A) :
  StronglySorted R (a ++ b) ->
  forall x y, In x a -> In y b -> R x y.
Proof.
  induction a as [|z a IH]; simpl; intros H x y Hx Hy; [contradiction|].
  inversion H as [|? ? Hs Hz]; subst.
  destruct Hx as [-> | Hx].
  - rewrite Forall_forall in Hz. apply Hz, in_or_app. now right.
  - exact (IH Hs x y Hx Hy).
Qed.

Lemma StronglySorted_map_snd (score : str -> nat) (l : list (nat * str)) :
  Forall (fun p => fst p = score (snd p)) l ->
  StronglySorted (fun a b => fst b <= fst a) l ->
  StronglySorted (fun a b => score b <= score a) (map snd l).
Proof.
  intros Hinv H. induction H as [|x l Hl IH Hx]; simpl; [constructor|].
  inversion Hinv as [|? ? Ex Hrest]; subst.
  constructor; [exact (IH Hrest)|].
  apply Forall_forall. intros s Hs. apply in_map_iff in Hs.
  destruct Hs as [p [<- Hp]].
  rewrite Forall_forall in Hx, Hrest.
  rewrite <- Ex, <- (Hrest p Hp). exact (Hx p Hp).
Qed.

(** X12. When the cap is at least 1 and one of the first 50 collected
    sentences shares a word with the question, the result is made of
    candidates only: at most [cap] of them, each with a positive score,
    in order of non-increasing score, and no candidate left out scores
    higher than one that is returned. *)
Theorem extract_relevant_sentences_ranking
  (documents : list str) (question : str) (max_sentences : Z) (c : str) :
  (1 <= max_sentences)%Z ->
  In c (firstn 50 (collect_sentences documents)) ->
  0 < overlap_score (word_set question) c ->
  let score := overlap_score (word_set question) in
  let candidates := firstn 50 (collect_sentences documents) in
  exists chosen,
    extract_relevant_sentences documents question max_sentences
    = join [10%N] chosen /\
    chosen <> [] /\
    (Z.of_nat (length chosen) <= max_sentences)%Z /\
    incl chosen candidates /\
    Forall (fun s => 0 < score s) chosen /\
    StronglySorted (fun a b => score b <= score a) chosen /\
    (forall d s,
        In d candidates -> ~ In d chosen -> In s chosen ->
        score d <= score s).
Proof.
  intros Hcap Hc Hpos score candidates.
  set (ranked := rank_sentences (word_set question)
                                (collect_sentences documents)).
  set (k := Z.to_nat max_sentences).
  assert (Hslice : slice_to max_sentences ranked = firstn k ranked).
  { unfold slice_to.
    destruct (max_sentences <? 0)%Z eqn:E; [|reflexivity].
    apply Z.ltb_lt in E. lia. }
  assert (Hin : forall p, In p ranked <->
                          exists s, In s candidates /\ p = (score s, s)).
  { intros p. unfold ranked, rank_sentences.
    rewrite sort_desc_In, in_map_iff.
    split; intros [s [H1 H2]]; exists s; auto. }
  assert (Hinv : Forall (fun p => fst p = score (snd p)) ranked).
  { apply Forall_forall. intros p Hp. apply Hin in Hp.
    destruct Hp as [s [_ ->]]. reflexivity. }
  assert (Hsorted : StronglySorted (fun a b => fst b <= fst a) ranked)
    by apply sort_desc_sorted.
  set (sel := filter (fun p : nat * str => 0 <? fst p) (firstn k ranked)).
  exists (map snd sel).
  assert (Hsel : forall p, In p sel -> In p (firstn k ranked) /\ 0 < fst p).
  { intros p Hp. apply filter_In in Hp. destruct Hp as [H1 H2].
    apply Nat.ltb_lt in H2. auto. }
  assert (Hne : sel <> []).
  { assert (Hcr : In (score c, c) ranked) by (apply Hin; eauto).
    destruct ranked as [|p0 tl] eqn:Er; [contradiction|].
    assert (Hp0 : 0 < fst p0).
    { inversion Hsorted as [|? ? _ Htl]; subst.
      destruct Hcr as [-> | Hcr]; [exact Hpos|].
      rewrite Forall_forall in Htl. specialize (Htl _ Hcr).
      simpl in Htl. unfold score in Htl. lia. }
    destruct k as [|k'] eqn:Ek; [lia|].
    unfold sel. simpl.
    apply Nat.ltb_lt in Hp0. rewrite Hp0. discriminate. }
  split; [|split; [|split; [|split; [|split; [|split]]]]].
  - rewrite extract_relevant_sentences_unfold.
    destruct documents as [|doc docs]; [destruct Hc|].
    change (is_empty (doc :: docs)) with false. cbv iota.
    destruct (collect_sentences (doc :: docs)) as [|s0 ss] eqn:Ec;
      [destruct Hc|].
    change (is_empty (s0 :: ss)) with false. cbv iota zeta.
    fold ranked. rewrite Hslice. fold sel.
    destruct (map snd sel) eqn:Em; [|reflexivity].
    destruct sel; [contradiction | discriminate].
  - intros E. apply map_eq_nil in E. contradiction.
  - rewrite length_map.
    assert (length sel <= k).
    { unfold sel. etransitivity; [apply filter_length_le|].
      rewrite length_firstn. apply Nat.le_min_l. }
    lia.
  - intros s Hs. apply in_map_iff in Hs. destruct Hs as [p [<- Hp]].
    apply Hsel in Hp. destruct Hp as [Hp _].
    apply In_firstn_keep, Hin in Hp. destruct Hp as [s [Hs ->]]. exact Hs.
  - apply Forall_forall. intros s Hs. apply in_map_iff in Hs.
    destruct Hs as [p [<- Hp]].
    destruct (Hsel p Hp) as [Hp1 Hp2].
    apply In_firstn_keep in Hp1.
    rewrite Forall_forall in Hinv. rewrite <- (Hinv p Hp1). exact Hp2.
  - apply StronglySorted_map_snd.
    + apply Forall_forall. intros p Hp. apply Hsel in Hp.
      rewrite Forall_forall in Hinv.
      apply Hinv, (In_firstn_keep _ k), (proj1 Hp).
    + apply StronglySorted_filter_keep, StronglySorted_firstn_keep, Hsorted.
  - intros d s Hd Hnot Hs.
    apply in_map_iff in Hs. destruct Hs as [ps [<- Hps]].
    destruct (Hsel ps Hps) as [Hps1 Hps2].
    assert (Eps : fst ps = score (snd ps)).
    { rewrite Forall_forall in Hinv.
      apply Hinv, (In_firstn_keep _ k), Hps1. }
    assert (Hdr : In (score d, d) ranked) by (apply Hin; eauto).
    rewrite <- (firstn_skipn k ranked) in Hdr.
    apply in_app_or in Hdr. destruct Hdr as [Hdr | Hdr].
    + destruct (0 <? score d) eqn:E.
      * exfalso. apply Hnot. apply in_map_iff.
        exists (score d, d). split; [reflexivity|].
        apply filter_In. split; [exact Hdr | exact E].
      * apply Nat.ltb_ge in E. lia.
    + rewrite <- (firstn_skipn k ranked) in Hsorted.
      pose proof (StronglySorted_app_sides _ _ _ Hsorted _ _ Hps1 Hdr) as H.
      simpl in H. lia.
Qed.

(** ** mian.py: documents, failures and the whole run *)

(** X13. At most ten documents are handed to the relevance step, and
    none of them is empty. *)
Theorem aggregate_bounded (references : list Reference) :
  length (aggregate references) <= 10 /\
  Forall (fun doc => is_empty doc = false) (aggregate references).
Proof.
  unfold aggregate.
  assert (Hfive : length (firstn 5 references) <= 5)
    by (rewrite length_firstn; apply Nat.le_min_l).
  revert Hfive. generalize (firstn 5 references) as refs. intros refs Hfive.
  set (docs_of := fun ref : Reference => _ ++ _).
  assert (H : length (flat_map docs_of refs) <= 2 * length refs /\
              Forall (fun doc => is_empty doc = false)
                     (flat_map docs_of refs)).
  { clear Hfive. induction refs as [|ref refs [Hlen Hall]]; simpl.
    - split; [lia | constructor].
    - rewrite length_app. split.
      + assert (length (docs_of ref) <= 2).
        { unfold docs_of.
          destruct (title ref) as [[|x t]|], (content ref) as [|y c];
            simpl; lia. }
        lia.
      + apply Forall_app. split; [|exact Hall].
        unfold docs_of.
        destruct (title ref) as [[|x t]|], (content ref) as [|y c];
          simpl; repeat constructor. }
  destruct H as [Hlen Hall]. split; [lia | exact Hall].
Qed.

(** X14. What is persisted when a generation fails: the error marker
    when the first call raises, the failure marker when it returns no
    output; and once a retry is due, the error marker when the retry
    raises (the first answer is dropped), the first cleaned answer when
    the retry returns no output. *)
Theorem answer_stage_failures (context query : str) (w w1 : World) :
  let prompt := [AnswerPrompt context query] in
  let retry_prompt :=
    [ChatMessage (lit "user") (simple_prompt context query)] in
  (generate w prompt = (None, w1) ->
   answer_stage context query w
   = (Ok error_marker, [EGenerate prompt], w1)) /\
  (generate w prompt = (Some [], w1) ->
   answer_stage context query w
   = (Ok generation_failed, [EGenerate prompt], w1)) /\
  (forall (first cleaned : str) (rest : list str) (w2 : World),
      generate w prompt = (Some (first :: rest), w1) ->
      Clean.clean_answer_aggressive (strip first) = Ok cleaned ->
      needs_retry cleaned = true ->
      (generate w1 retry_prompt = (None, w2) ->
       answer_stage context query w
       = (Ok error_marker, [EGenerate prompt; EGenerate retry_prompt], w2))
      /\
      (generate w1 retry_prompt = (Some [], w2) ->
       answer_stage context query w
       = (Ok cleaned, [EGenerate prompt; EGenerate retry_prompt], w2))).
Proof.
  cbv zeta.
  unfold answer_stage, try_except, bind, call_generate, lift, ret.
  split; [|split].
  - intros ->. reflexivity.
  - intros ->. reflexivity.
  - intros first cleaned rest w2 -> Hc Hr. cbv beta iota.
    rewrite Hc. cbv beta iota. rewrite Hr.
    split; intros ->; reflexivity.
Qed.

Lemma searches_app (a b : list Event) :
  searches (a ++ b) = searches a ++ searches b.
Proof.
  induction a as [|[ps|q k|chunk] a IH]; simpl; auto.
  now rewrite IH.
Qed.

Lemma requests_app (a b : list Event) :
  requests (a ++ b) = requests a ++ requests b.
Proof.
  induction a as [|[ps|q k|chunk] a IH]; simpl; auto.
  now rewrite IH.
Qed.

Lemma answer_stage_summary (context query : str) (w : World) :
  exists output_field events w',
    answer_stage context query w = (Ok output_field, events, w') /\
    writes events = [] /\ searches events = [] /\
    length (requests events) <= 2 /\
    length output_field <= 30.
Proof.
  unfold answer_stage, try_except, bind, call_generate, lift, ret.
  destruct (generate w [AnswerPrompt context query])
    as [[[|first rest]|] w1]; cbv beta iota;
    try (do 3 eexists; repeat split; simpl; lia).
  destruct (clean_answer_total_bounded (strip first))
    as [cleaned [-> [Hc _]]].
  cbv beta iota.
  destruct (needs_retry cleaned);
    [|do 3 eexists; repeat split; simpl; lia].
  destruct (generate w1 _) as [[[|retry0 others]|] w2]; cbv beta iota;
    try (do 3 eexists; repeat split; simpl; lia).
  destruct (clean_answer_total_bounded retry0) as [final [-> [Hf _]]].
  do 3 eexists. repeat split; simpl; lia.
Qed.

Lemma process_question_summary (question_id : json_scalar) (text : str)
  (w : World) :
  exists output_field query events w',
    process_question question_id text w = (Ok tt, events, w') /\
    writes events
    = [json_dumps_result_item question_id output_field ++ [10%N]] /\
    length output_field <= 30 /\
    searches events = [(query, 10)] /\
    length (requests events) <= 4.
Proof.
  destruct (decompose_stage_run text w)
    as [core_q [w1 [keywords [w2 [_ [_ Hd]]]]]].
  cbv zeta in Hd.
  unfold process_question, bind at 1. rewrite Hd. cbv beta iota.
  unfold bind at 1, call_web_search.
  cbn [search_query core_question].
  destruct (web_search w2 _ 10) as [references w3].
  unfold bind at 1.
  destruct (answer_stage_summary
              (extract_relevant_sentences (aggregate references) text 2)
              core_q w3)
    as [output_field [events3 [w4 [Ha [Hw [Hs [Hr Hlen]]]]]]].
  rewrite Ha. unfold write.
  exists output_field. do 3 eexists. split; [reflexivity|].
  rewrite !writes_app, !searches_app, !requests_app, Hw, Hs.
  rewrite !length_app.
  destruct (length text <? 20), (length text <? 10);
    repeat split; simpl; try lia; try reflexivity; exact Hlen.
Qed.

Lemma main_loop_summary (questions : list entry) :
  forall (i : nat) (w : World),
  exists outputs events w',
    main_loop i questions w = (Ok tt, events, w') /\
    length outputs = length (valid_ids i questions) /\
    writes events
    = map (fun p => json_dumps_result_item (fst p) (snd p) ++ [10%N])
          (combine (valid_ids i questions) outputs) /\
    Forall (fun output => length output <= 30) outputs /\
    length (searches events) = length (valid_ids i questions) /\
    Forall (fun search => snd search = 10) (searches events) /\
    length (requests events) <= 4 * length (valid_ids i questions).
Proof.
  induction questions as [|q rest IH]; intros i w.
  - exists [], [], w. simpl. repeat split; auto.
  - destruct q as [|id [text|] expected]; cbn [main_loop valid_ids];
      try (exact (IH (S i) w)).
    set (question_id := match id with
                        | Some v => v
                        | None => JStr (lit "q_" ++ decimal_nat i)
                        end).
    destruct (process_question_summary question_id text w)
      as [output_field [query [events1 [w1 [Hp [Hw [Hlen [Hs Hr]]]]]]]].
    destruct (IH (S i) w1)
      as [outputs [events2 [w2 [Hl [Hn [Hws [Hall [Hsn [Hsk Hrn]]]]]]]]].
    exists (output_field :: outputs), (events1 ++ events2), w2.
    unfold bind. rewrite Hp, Hl.
    rewrite writes_app, searches_app, requests_app, Hw, Hs, Hws.
    rewrite !length_app. simpl length.
    split; [reflexivity|]. split; [now rewrite Hn|].
    split; [reflexivity|]. split; [constructor; assumption|].
    split; [now rewrite Hsn|]. split; [constructor; [reflexivity | exact Hsk]|].
    lia.
Qed.

Lemma split_each_whole (sep : char -> bool) (p : str) :
  existsb sep p = false -> split_each sep p = [p].
Proof.
  induction p as [|c p IH]; simpl; [reflexivity|].
  intros H. apply orb_false_elim in H. destruct H as [Hc Hp].
  rewrite Hc, (IH Hp). reflexivity.
Qed.

Lemma split_each_app (sep : char -> bool) (p t : str) (c : char) :
  existsb sep p = false -> sep c = true ->
  split_each sep (p ++ c :: t) = p :: split_each sep t.
Proof.
  intros Hp Hc. induction p as [|x p IH]; simpl.
  - rewrite Hc. reflexivity.
  - simpl in Hp. apply orb_false_elim in Hp. destruct Hp as [Hx Hp].
    rewrite Hx, (IH Hp). reflexivity.
Qed.

Lemma split_each_join (c : char) (parts : list str) :
  parts <> [] ->
  Forall (fun part => in_str c part = false) parts ->
  split_each (N.eqb c) (join [c] parts) = parts.
Proof.
  intros Hne H. induction H as [|p rest Hp Hrest IH]; [contradiction|].
  destruct rest as [|q rest].
  - simpl. apply split_each_whole. exact Hp.
  - change (join [c] (p :: q :: rest)) with (p ++ c :: join [c] (q :: rest)).
    rewrite split_each_app; [|exact Hp | apply N.eqb_refl].
    rewrite IH by discriminate. reflexivity.
Qed.

Lemma comma_or_space_free_no_space (e : str) :
  existsb comma_or_space e = false -> in_str 32%N e = false.
Proof.
  unfold in_str. induction e as [|c e IH]; [reflexivity|].
  cbn [existsb]. intros H. apply orb_false_elim in H.
  destruct H as [Hc He]. rewrite (IH He), orb_false_r.
  destruct (N.eqb 32 c) eqn:E; [|reflexivity].
  apply N.eqb_eq in E. subst c. discriminate Hc.
Qed.

(** X16. On the generator path the search query is no more and no less
    than the keywords: cutting it at every space gives the keywords
    back. *)
Theorem search_query_splits_into_keywords
  (text first : str) (rest : list str) (w0 w w1 : World)
  (core_q : str) (events : list Event) :
  10 <= length text ->
  extract_question_with_llm text w0 = (Ok core_q, events, w) ->
  generate w [KeywordPrompt text] = (Some (first :: rest), w1) ->
  parse_entities first <> [] ->
  exists d,
    decompose_stage text w0
    = (Ok d, events ++ [EGenerate [KeywordPrompt text]], w1) /\
    entities d = parse_entities first /\
    split_each (N.eqb 32) (search_query d) = entities d.
Proof.
  intros Hlen Hq Hgen Hne.
  assert (Hrun : extract_core_entities text w
                 = (Ok (parse_entities first),
                    [EGenerate [KeywordPrompt text]], w1)).
  { unfold extract_core_entities.
    apply Nat.ltb_ge in Hlen. rewrite Hlen.
    unfold try_except, bind, call_generate, ret.
    rewrite Hgen. reflexivity. }
  eexists. split; [|split].
  - unfold decompose_stage, bind. rewrite Hq, Hrun.
    unfold ret. cbv beta iota. rewrite app_nil_r. reflexivity.
  - reflexivity.
  - cbn [search_query entities].
    destruct (parse_entities first) as [|k ks] eqn:E; [contradiction|].
    change (is_empty (k :: ks)) with false. cbv iota.
    apply (split_each_join 32%N (k :: ks)); [discriminate|].
    rewrite <- E.
    eapply Forall_impl; [|apply (proj2 (parse_entities_shape first))].
    intros e [_ He]. exact (comma_or_space_free_no_space e He).
Qed.


(** X18. Every collected sentence has more than 10 characters, no
    whitespace at either end and no sentence terminator or line feed
    inside. *)
Theorem collect_sentences_shape (documents : list str) :
  Forall (fun sent => 10 < length sent /\ padded sent = false /\
                      existsb sentence_end sent = false)
         (collect_sentences documents).
Proof.
  unfold collect_sentences.
  induction documents as [|doc docs IH]; simpl; [constructor|].
  apply Forall_app. split; [|exact IH].
  pose proof (split_runs_from_pieces sentence_end doc false) as H.
  fold (split_runs sentence_end doc) in H.
  induction H as [|piece pieces Hp _ IHp]; simpl; [constructor|].
  destruct (10 <? length (strip piece)) eqn:E; simpl; [|exact IHp].
  constructor; [|exact IHp].
  apply Nat.ltb_lt in E. split; [exact E|].
  split; [apply strip_not_padded | apply existsb_strip; exact Hp].
Qed.

Lemma sort_desc_equal_scores (n : nat) (l : list (nat * str)) :
  Forall (fun p => fst p = n) l -> sort_desc l = l.
Proof.
  induction 1 as [|x l Hx Hl IH]; simpl; [reflexivity|].
  rewrite IH. destruct Hl as [|y l' Hy _]; simpl; [reflexivity|].
  rewrite Hx, Hy, Nat.leb_refl. reflexivity.
Qed.

Lemma filter_everything {A} (f : A -> bool) (l : list A) :
  Forall (fun x => f x = true) l -> filter f l = l.
Proof.
  induction 1 as [|x l Hx _ IH]; simpl; [reflexivity|].
  now rewrite Hx, IH.
Qed.

(** X20. Ties keep the order of the documents: when the cap is at least
    1 and the first 50 collected sentences all have the same positive
    score, the first [cap] of them are returned, in their order. *)
Theorem extract_relevant_sentences_ties
  (documents : list str) (question : str) (max_sentences : Z) (n : nat) :
  (1 <= max_sentences)%Z ->
  0 < n ->
  is_empty (collect_sentences documents) = false ->
  Forall (fun sent => overlap_score (word_set question) sent = n)
         (firstn 50 (collect_sentences documents)) ->
  extract_relevant_sentences documents question max_sentences
  = join [10%N]
      (firstn (Z.to_nat max_sentences)
              (firstn 50 (collect_sentences documents))).
Proof.
  intros Hcap Hn Hne Hall.
  rewrite extract_relevant_sentences_unfold.
  destruct documents as [|doc docs]; [discriminate Hne|].
  change (is_empty (doc :: docs)) with false. cbv iota.
  rewrite Hne. cbv zeta.
  set (candidates := firstn 50 (collect_sentences (doc :: docs))) in *.
  set (scored := map (fun sent =>
                        (overlap_score (word_set question) sent, sent))
                     candidates).
  assert (Hscored : Forall (fun p => fst p = n) scored).
  { subst scored. apply Forall_forall. intros p Hp.
    apply in_map_iff in Hp. destruct Hp as [sent [<- Hs]].
    rewrite Forall_forall in Hall. exact (Hall sent Hs). }
  unfold rank_sentences. fold candidates. fold scored.
  rewrite (sort_desc_equal_scores n scored Hscored).
  assert (Hslice : slice_to max_sentences scored
                   = firstn (Z.to_nat max_sentences) scored).
  { unfold slice_to.
    destruct (max_sentences <? 0)%Z eqn:E; [|reflexivity].
    apply Z.ltb_lt in E. lia. }
  rewrite Hslice.
  rewrite filter_everything.
  - assert (E : map snd (firstn (Z.to_nat max_sentences) scored)
                = firstn (Z.to_nat max_sentences) candidates).
    { subst scored. rewrite <- firstn_map, map_map. simpl.
      rewrite map_id. reflexivity. }
    rewrite E.
    destruct (Z.to_nat max_sentences) as [|k] eqn:Ek; [lia|].
    destruct candidates as [|c0 cs] eqn:Ec; [|reflexivity].
    subst candidates.
    destruct (collect_sentences (doc :: docs)); [discriminate Hne|].
    discriminate Ec.
  - apply Forall_firstn_keep.
    eapply Forall_impl; [|exact Hscored].
    intros p Hp. rewrite Hp. apply Nat.ltb_lt. exact Hn.
Qed.

Lemma join_nonempty (sep part : str) (parts : list str) :
  is_empty part = false -> is_empty (join sep (part :: parts)) = false.
Proof.
  destruct part as [|c part]; [discriminate|]. intros _.
  destruct parts; reflexivity.
Qed.

Lemma fallback_keywords_first (text : str) :
  10 <= length text ->
  exists k ks, fallback_keywords text = k :: ks /\ is_empty k = false.
Proof.
  intros Hlen. unfold fallback_keywords.
  pose proof (findall_from_Forall (match_letters 2 (Some 15))
                (fun t => forallb is_ascii_letter t = true /\
                          2 <= length t <= 15)
                match_letters_token text None 0) as Hw.
  pose proof (findall_from_Forall match_digits
                (fun t => forallb is_digit t = true /\ 1 <= length t)
                match_digits_token text None 0) as Hn.
  fold (findall (match_letters 2 (Some 15)) text) in Hw.
  fold (findall match_digits text) in Hn.
  destruct (findall (match_letters 2 (Some 15)) text) as [|x xs].
  - destruct (findall match_digits text) as [|y ys]; simpl.
    + exists (firstn 30 text), []. split; [reflexivity|].
      destruct text; [simpl in Hlen; lia | reflexivity].
    + inversion Hn as [|? ? [_ Hy] _]; subst.
      eexists y, _. split; [reflexivity|].
      destruct y; [simpl in Hy; lia | reflexivity].
  - inversion Hw as [|? ? [_ Hx] _]; subst. simpl.
    eexists x, _. split; [reflexivity|].
    destruct x; [simpl in Hx; lia | reflexivity].
Qed.

(** X21. The search query is empty only for an empty question text,
    whichever way the core question and the keywords were obtained. *)
Theorem search_query_nonempty (text : str) (w : World) :
  exists d events w',
    decompose_stage text w = (Ok d, events, w') /\
    is_empty (search_query d) = is_empty text.
Proof.
  destruct (core_question_nonempty text w)
    as [core_q [events1 [w1 [Hq Hcq]]]].
  unfold decompose_stage, bind at 1. rewrite Hq. cbv beta iota.
  unfold bind, extract_core_entities.
  destruct (length text <? 10) eqn:Hlen.
  - unfold ret. do 3 eexists. split; [reflexivity|].
    cbn [search_query is_empty join]. reflexivity.
  - assert (Hne : is_empty text = false).
    { apply Nat.ltb_ge in Hlen. destruct text; [simpl in Hlen; lia|].
      reflexivity. }
    rewrite Hne in Hcq |- *.
    destruct (fallback_keywords_first text) as [k [ks [Hfb Hk]]];
      [apply Nat.ltb_ge; exact Hlen|].
    unfold try_except, bind, call_generate, ret.
    destruct (generate w1 [KeywordPrompt text]) as [[[|first rest]|] w2];
      cbv beta iota.
    + rewrite Hfb. do 3 eexists. split; [reflexivity|].
      cbn [search_query]. change (is_empty (k :: ks)) with false. cbv iota.
      apply join_nonempty, Hk.
    + destruct (parse_entities first) as [|e es] eqn:E.
      * do 3 eexists. split; [reflexivity|]. exact Hcq.
      * do 3 eexists. split; [reflexivity|].
        cbn [search_query]. change (is_empty (e :: es)) with false. cbv iota.
        apply join_nonempty.
        pose proof (proj2 (parse_entities_shape first)) as Hs.
        rewrite E in Hs. inversion Hs as [|? ? [He _] _]; subst.
        destruct e; [simpl in He; lia | reflexivity].
    + rewrite Hfb. do 3 eexists. split; [reflexivity|].
      cbn [search_query]. change (is_empty (k :: ks)) with false. cbv iota.
      apply join_nonempty, Hk.
Qed.

(** C3. When the generator answers the answer prompt with [first], the
    cleaned answer exists; the retry request is issued exactly when the
    cleaned answer is shorter than 2 characters or one of the four
    leakage words occurs in it, that is, the answer is some text, the
    word in lower case as listed, and some text; the stage issues the
    answer request, then at most that one retry, and nothing else;
    without a retry the cleaned answer is final, and with one the
    cleaned first output of the retry is final whatever it looks like. *)
Theorem answer_stage_retries_once
  (context query first : str) (rest : list str) (w w1 : World) :
  generate w [AnswerPrompt context query] = (Some (first :: rest), w1) ->
  let retry_prompt :=
    [ChatMessage (lit "user") (simple_prompt context query)] in
  exists cleaned,
    Clean.clean_answer_aggressive (strip first) = Ok cleaned /\
    (needs_retry cleaned = true <->
     length cleaned < 2 \/
     exists bad l r,
       In bad (map lit ["according"; "based on"; "information";
                        "reference"]%string) /\
       cleaned = l ++ bad ++ r) /\
    snd (fst (answer_stage context query w))
    = EGenerate [AnswerPrompt context query]
      :: (if needs_retry cleaned then [EGenerate retry_prompt] else []) /\
    (needs_retry cleaned = false ->
     answer_stage context query w
     = (Ok cleaned, [EGenerate [AnswerPrompt context query]], w1)) /\
    (needs_retry cleaned = true ->
     forall (retry0 : str) (others : list str) (w2 : World),
       generate w1 retry_prompt = (Some (retry0 :: others), w2) ->
       exists final,
         Clean.clean_answer_aggressive retry0 = Ok final /\
         answer_stage context query w
         = (Ok final,
            [EGenerate [AnswerPrompt context query]; EGenerate retry_prompt],
            w2)).
Proof.
  intros Hgen retry_prompt.
  destruct (clean_answer_total_bounded (strip first)) as [cleaned [Hc _]].
  exists cleaned. split; [exact Hc|]. split.
  { rewrite needs_retry_iff. split; (intros [H|H]; [left; exact H | right]).
    - destruct H as [bad [Hin Hbad]].
      destruct (contains_elim _ _ Hbad) as [l [r E]].
      exists bad, l, r. split; [exact Hin | exact E].
    - destruct H as [bad [l [r [Hin E]]]].
      exists bad. split; [exact Hin|]. rewrite E. apply contains_intro. }
  unfold answer_stage, try_except, bind, call_generate, lift, ret.
  rewrite Hgen. cbv beta iota. rewrite Hc. cbv beta iota.
  fold retry_prompt.
  destruct (needs_retry cleaned) eqn:Hretry.
  - split; [|split; [discriminate|]].
    + destruct (generate w1 retry_prompt) as [[[|retry0 others]|] w2];
        cbv beta iota; try reflexivity.
      destruct (clean_answer_total_bounded retry0) as [final [-> _]].
      reflexivity.
    + intros _ retry0 others w2 Hgen2. rewrite Hgen2. cbv beta iota.
      destruct (clean_answer_total_bounded retry0) as [final [Hf _]].
      exists final. rewrite Hf. split; reflexivity.
  - split; [reflexivity|]. split; [reflexivity | discriminate].
Qed.

(** ** Cutting and trimming, said without [split] and [strip] *)

Lemma split_each_cut_at (sep : char -> bool) (text : str) :
  cut_at sep text (split_each sep text).
Proof.
  induction text as [|c s IH]; simpl.
  - apply cut_last. reflexivity.
  - destruct (sep c) eqn:Hc.
    + apply (@cut_more sep [] c s _ eq_refl Hc IH).
    + inversion IH as [seg Hseg | seg c' text' segs Hseg Hc' Hrest]; subst.
      * simpl. apply cut_last. simpl. rewrite Hc. exact Hseg.
      * simpl. apply (@cut_more sep (c :: seg) c' text' segs); auto.
        simpl. rewrite Hc. exact Hseg.
Qed.

Lemma cut_at_unique (sep : char -> bool) (text : str) (a b : list str) :
  cut_at sep text a -> cut_at sep text b -> a = b.
Proof.
  intros Ha. revert b.
  assert (Hhead : forall seg seg' c c' t t',
             existsb sep seg = false -> existsb sep seg' = false ->
             sep c = true -> sep c' = true ->
             seg ++ c :: t = seg' ++ c' :: t' -> seg = seg' /\ t = t').
  { induction seg as [|x seg IH]; intros [|y seg'] c c' t t' H1 H2 Hc Hc' E;
      simpl in *.
    - injection E as _ ->. split; reflexivity.
    - injection E as -> _. rewrite Hc in H2. discriminate H2.
    - injection E as -> _. rewrite Hc' in H1. discriminate H1.
    - injection E as -> E.
      apply orb_false_elim in H1, H2.
      destruct (IH seg' c c' t t' (proj2 H1) (proj2 H2) Hc Hc' E) as [-> ->].
      split; reflexivity. }
  assert (Hlast : forall seg seg' c t,
             existsb sep seg = false -> sep c = true ->
             seg = seg' ++ c :: t -> False).
  { intros seg seg' c t H Hc ->. rewrite existsb_app in H.
    simpl in H. rewrite Hc, orb_true_r in H. discriminate H. }
  induction Ha as [seg Hseg | seg c text segs Hseg Hc Hrest IH];
    intros b Hb.
  - inversion Hb as [seg' Hseg' | seg' c' text' segs' Hseg' Hc' Hrest'];
      subst; [reflexivity|].
    exfalso. exact (Hlast _ _ _ _ Hseg Hc' eq_refl).
  - inversion Hb as [seg' Hseg' E | seg' c' text' segs' Hseg' Hc' Hrest' E];
      subst.
    + exfalso. exact (Hlast _ _ _ _ Hseg' Hc eq_refl).
    + destruct (Hhead _ _ _ _ _ _ Hseg' Hseg Hc' Hc E) as [-> ->].
      f_equal. apply IH. exact Hrest'.
Qed.

Lemma lstrip_by_split (p : char -> bool) (s : str) :
  exists l, s = l ++ lstrip_by p s /\ forallb p l = true.
Proof.
  induction s as [|c s [l [IH Hl]]]; simpl.
  - exists []. split; reflexivity.
  - destruct (p c) eqn:Hc.
    + exists (c :: l). simpl. rewrite Hc, Hl. split; [|reflexivity].
      f_equal. exact IH.
    + exists []. split; reflexivity.
Qed.

Lemma rstrip_by_split (p : char -> bool) (s : str) :
  exists r, s = rstrip_by p s ++ r /\ forallb p r = true.
Proof.
  induction s as [|c s [r [IH Hr]]]; simpl.
  - exists []. split; reflexivity.
  - destruct (rstrip_by p s) as [|x t] eqn:E.
    + simpl in IH. subst r. destruct (p c) eqn:Hc.
      * exists (c :: s). simpl. rewrite Hc, Hr. split; reflexivity.
      * exists s. split; [reflexivity | exact Hr].
    + exists r. split; [|exact Hr]. simpl. f_equal. exact IH.
Qed.

Lemma strip_trims_to (s : str) : trims_to s (strip s).
Proof.
  destruct (lstrip_by_split is_space s) as [lead [Hl Hlead]].
  destruct (rstrip_by_split is_space (lstrip_by is_space s))
    as [trail [Hr Htrail]].
  exists lead, trail. split; [|split; [exact Hlead|split; [exact Htrail|]]].
  - unfold strip, strip_by. rewrite <- Hr. exact Hl.
  - apply strip_not_padded.
Qed.




(** ** clean.py: what the last line chooses from *)

(** X2. The six stages and the [strip] behind them always give an
    answer without whitespace at either end. When that answer is not
    empty it is the cleaned answer; the first 20 characters of the raw
    input, trimmed or not, are returned exactly when the stages left
    nothing. *)
Theorem clean_answer_trimmed_or_raw (s : str) :
  exists a r,
    transformed s = Ok a /\
    Clean.clean_answer_aggressive s = Ok r /\
    padded a = false /\
    (is_empty a = false /\ r = a \/
     is_empty a = true /\ r = firstn 20 s).
Proof.
  destruct s as [|c s].
  { exists [], []. repeat split. right. split; reflexivity. }
  unfold Clean.clean_answer_aggressive, transformed.
  destruct (colon_split_total
              (Clean.strip_bad_start Clean.bad_starts (c :: s))) as [a1 ->].
  cbv beta iota delta [rbind is_empty].
  destruct (first_clause_total Clean.delimiters
              (strip_by (in_chars Clean.quotes) a1)) as [a2 ->].
  cbv beta iota.
  set (a3 := if 30 <? _ then _ else _).
  pose proof (strip_not_padded a3) as Hp.
  exists (strip a3).
  destruct (strip a3) as [|x r].
  - eexists. split; [reflexivity|]. split; [reflexivity|].
    split; [exact Hp|]. right. split; reflexivity.
  - eexists. split; [reflexivity|]. split; [reflexivity|].
    split; [exact Hp|]. left. split; reflexivity.
Qed.

(** ** The tokens of the fallback, said without the matchers *)



Lemma take_while_app_stop (p : char -> bool) (l r : str) :
  forallb p l = true -> starts_in p r = false ->
  take_while p (l ++ r) = l.
Proof.
  intros Hl Hr. induction l as [|c l IH]; simpl.
  - destruct r as [|x r]; [reflexivity|]. simpl in Hr |- *. rewrite Hr.
    reflexivity.
  - simpl in Hl. apply andb_true_iff in Hl. destruct Hl as [Hc Hl].
    rewrite Hc, (IH Hl). reflexivity.
Qed.









(** The runs of a text are determined by the text. *)
Lemma runs_unique (p : char -> bool) (text : str) (a b : list str) :
  runs p text a -> runs p text b -> a = b.
Proof.
  assert (Hstart : forall run rest,
             run <> [] -> forallb p run = true ->
             starts_in (fun c => negb (p c)) (run ++ rest) = false).
  { intros [|x run] rest Hne Hrun; [contradiction|]. simpl in *.
    apply andb_true_iff in Hrun. destruct Hrun as [-> _]. reflexivity. }
  assert (Hnone : forall gap run rest,
             forallb (fun c => negb (p c)) (gap ++ run ++ rest) = true ->
             run <> [] -> forallb p run = true -> False).
  { intros gap [|x run] rest H Hne Hrun; [contradiction|].
    rewrite forallb_app in H. apply andb_true_iff in H.
    destruct H as [_ H]. simpl in H, Hrun.
    apply andb_true_iff in Hrun. destruct Hrun as [Hx _].
    rewrite Hx in H. discriminate H. }
  intros Ha. revert b.
  induction Ha as [gap Hgap | gap run rest others Hgap Hne Hrun Hrest Ho IH];
    intros b Hb.
  - inversion Hb as [gap' Hgap' | gap' run' rest' others' Hg' Hn' Hr' Hs' Ho'];
      subst; [reflexivity|].
    exfalso. exact (Hnone _ _ _ Hgap Hn' Hr').
  - inversion Hb
      as [gap' Hgap' E | gap' run' rest' others' Hg' Hn' Hr' Hs' Ho' E];
      subst.
    + exfalso. exact (Hnone _ _ _ Hgap' Hne Hrun).
    + assert (Egap : gap' = gap).
      { rewrite <- (take_while_app_stop _ gap' (run' ++ rest') Hg'
                      (Hstart _ _ Hn' Hr')).
        rewrite E.
        apply (take_while_app_stop _ gap (run ++ rest) Hgap
                 (Hstart _ _ Hne Hrun)). }
      subst gap'. apply app_inv_head in E.
      assert (Erun : run' = run).
      { rewrite <- (take_while_app_stop p run' rest' Hr' Hs').
        rewrite E. apply (take_while_app_stop p run rest Hrun Hrest). }
      subst run'. apply app_inv_head in E. subst rest'.
      f_equal. apply IH. exact Ho'.
Qed.









(** ** extract.py: the last sentence, said without [split] and [strip] *)

Lemma split_each_ext (f g : char -> bool) (s : str) :
  (forall c, f c = g c) -> split_each f s = split_each g s.
Proof.
  intros H. induction s as [|c s IH]; simpl; [reflexivity|].
  rewrite H, IH. reflexivity.
Qed.

Lemma sentence_mark_in_chars (c : char) :
  in_chars (lit ".?!") c = sentence_mark c.
Proof.
  change (in_chars (lit ".?!") c)
    with ((c =? 46)%N || ((c =? 63)%N || ((c =? 33)%N || false))).
  unfold sentence_mark.
  destruct (c =? 46)%N, (c =? 63)%N, (c =? 33)%N; reflexivity.
Qed.

Lemma last_cons_default {A} (l : list A) :
  forall a d, last (a :: l) d = last l a.
Proof.
  induction l as [|b l IH]; intros a d; [reflexivity|].
  change (last (a :: b :: l) d) with (last (b :: l) d).
  rewrite (IH b d), (IH b a). reflexivity.
Qed.

Lemma ends_in_app_cons (p : char -> bool) (l : str) (c : char) (r : str) :
  ends_in p (l ++ c :: r) = ends_in p (c :: r).
Proof.
  induction l as [|x l IH]; [reflexivity|].
  change ((x :: l) ++ c :: r) with (x :: (l ++ c :: r)).
  destruct (l ++ c :: r) as [|y t] eqn:E.
  - destruct l; discriminate E.
  - change (ends_in p (x :: y :: t)) with (ends_in p (y :: t)).
    exact IH.
Qed.

Lemma strip_empty_blank (seg : str) :
  is_empty (strip seg) = true -> blank seg = true.
Proof.
  destruct (strip_trims_to seg) as [lead [trail [E [Hl [Ht _]]]]].
  destruct (strip seg); [|discriminate]. intros _.
  rewrite E. unfold blank in *. rewrite forallb_app, Hl.
  simpl. exact Ht.
Qed.

Lemma forallb_weaken (f g : char -> bool) (s : str) :
  (forall c, f c = true -> g c = true) ->
  forallb f s = true -> forallb g s = true.
Proof.
  intros H. induction s as [|c s IH]; simpl; [reflexivity|].
  intros Hs. apply andb_true_iff in Hs. destruct Hs as [Hc Hs].
  rewrite (H _ Hc), (IH Hs). reflexivity.
Qed.

(** The last piece of a cut text that is not blank, and what surrounds
    it. *)
Lemma cut_at_last_kept (sep : char -> bool) (text : str)
  (segs : list str) :
  cut_at sep text segs ->
  let keep := fun s : str => negb (is_empty (strip s)) in
  filter keep segs = [] /\
  forallb (fun c => sep c || is_space c) text = true \/
  exists before seg after,
    text = before ++ seg ++ after /\
    (before = [] \/ ends_in sep before = true) /\
    existsb sep seg = false /\
    keep seg = true /\
    (after = [] \/ starts_in sep after = true) /\
    forallb (fun c => sep c || is_space c) after = true /\
    forall d, last (map strip (filter keep segs)) d = strip seg.
Proof.
  intros Hcut keep.
  assert (Hblank : forall s, keep s = false ->
            forallb (fun c => sep c || is_space c) s = true).
  { intros s Hs. apply negb_false_iff in Hs.
    apply (forallb_weaken is_space); [|exact (strip_empty_blank s Hs)].
    intros c ->. apply orb_true_r. }
  induction Hcut as [seg Hseg | seg c text segs Hseg Hc Hrest IH].
  - cbn [filter]. destruct (keep seg) eqn:Hk.
    + right. exists [], seg, []. rewrite app_nil_r.
      split; [reflexivity|]. split; [left; reflexivity|].
      split; [exact Hseg|]. split; [exact Hk|].
      split; [left; reflexivity|]. split; [reflexivity|].
      intros d. reflexivity.
    + left. split; [reflexivity | exact (Hblank seg Hk)].
  - cbn [filter]. destruct IH as [[Hnone Hall] | IH].
    + destruct (keep seg) eqn:Hk.
      * right. exists [], seg, (c :: text).
        split; [reflexivity|]. split; [left; reflexivity|].
        split; [exact Hseg|]. split; [exact Hk|].
        split; [right; exact Hc|].
        split; [simpl; rewrite Hc, Hall; reflexivity|].
        intros d. rewrite Hnone. reflexivity.
      * left. split; [exact Hnone|].
        rewrite forallb_app, (Hblank seg Hk). simpl.
        rewrite Hc, Hall. reflexivity.
    + destruct IH as [before [s0 [after [E [Hb [Hs0 [Hk0 [Ha [Hall Hl]]]]]]]]].
      right. exists (seg ++ c :: before), s0, after.
      split; [rewrite E, <- app_assoc; reflexivity|].
      split.
      { right. rewrite ends_in_app_cons.
        destruct Hb as [-> | Hb]; [exact Hc|].
        destruct before as [|x b]; [discriminate Hb | exact Hb]. }
      split; [exact Hs0|]. split; [exact Hk0|].
      split; [exact Ha|]. split; [exact Hall|].
      intros d. destruct (keep seg); [|apply Hl].
      cbn [map]. rewrite last_cons_default. apply Hl.
Qed.

Lemma last_sentence_spec (text : str) :
  last_sentence_of text (last_sentence text) \/
  forallb mark_or_space text = true /\ last_sentence text = text.
Proof.
  unfold last_sentence.
  rewrite (split_each_ext _ sentence_mark text sentence_mark_in_chars).
  destruct (cut_at_last_kept sentence_mark text _
              (split_each_cut_at sentence_mark text))
    as [[Hnone Hall] | [before [seg [after [E [Hb [Hs [Hk [Ha [Hall Hl]]]]]]]]]].
  - right. rewrite Hnone. split; [exact Hall | reflexivity].
  - left. cbv beta zeta in Hl, Hk.
    set (sentences :=
           map strip
             (filter (fun s => negb (is_empty (strip s)))
                (split_each sentence_mark text))) in *.
    assert (Hne : is_empty sentences = false).
    { destruct sentences as [|x l]; [|reflexivity].
      specialize (Hl []). simpl in Hl. rewrite <- Hl in Hk.
      discriminate Hk. }
    rewrite Hne, (Hl text).
    destruct (strip_trims_to seg) as [lead [trail [Eseg [Hlead [Htrail Hp]]]]].
    exists before, lead, trail, after.
    split.
    { rewrite E. rewrite Eseg at 1. rewrite <- !app_assoc. reflexivity. }
    split; [exact Hb|]. split; [exact Hlead|]. split; [exact Htrail|].
    split; [apply negb_true_iff in Hk; exact Hk|].
    split; [exact Hp|].
    split; [exact (existsb_strip _ _ Hs)|].
    split; [exact Ha | exact Hall].
Qed.

Lemma rstrip_by_blank (p : char -> bool) (t : str) :
  forallb p t = true -> rstrip_by p t = [].
Proof.
  induction t as [|c t IH]; [reflexivity|]. simpl. intros H.
  apply andb_true_iff in H. destruct H as [Hc Ht].
  rewrite (IH Ht), Hc. reflexivity.
Qed.

Lemma rstrip_by_app_stop (p : char -> bool) (q trail : str) :
  ends_in p q = false -> forallb p trail = true ->
  rstrip_by p (q ++ trail) = q.
Proof.
  intros Hq Htrail. induction q as [|x q IH].
  - simpl. apply rstrip_by_blank. exact Htrail.
  - destruct q as [|y q].
    + simpl in Hq |- *. rewrite (rstrip_by_blank _ _ Htrail), Hq.
      reflexivity.
    + assert (E : rstrip_by p ((y :: q) ++ trail) = y :: q)
        by (apply IH; exact Hq).
      change (rstrip_by p ((x :: y :: q) ++ trail))
        with (match rstrip_by p ((y :: q) ++ trail) with
              | [] => if p x then [] else [x]
              | r => x :: r
              end).
      rewrite E. reflexivity.
Qed.

Lemma lstrip_by_app_stop (p : char -> bool) (lead q : str) :
  forallb p lead = true -> starts_in p q = false ->
  lstrip_by p (lead ++ q) = q.
Proof.
  intros Hlead Hq. induction lead as [|c lead IH].
  - destruct q as [|x q]; [reflexivity|].
    simpl in Hq |- *. rewrite Hq. reflexivity.
  - simpl in Hlead |- *. apply andb_true_iff in Hlead.
    destruct Hlead as [-> Hlead]. exact (IH Hlead).
Qed.

Lemma ends_in_orb (f g : char -> bool) (s : str) :
  ends_in (fun c => f c || g c) s = ends_in f s || ends_in g s.
Proof.
  induction s as [|c s IH]; [reflexivity|].
  destruct s as [|x s]; [reflexivity | exact IH].
Qed.

Lemma ends_in_existsb (p : char -> bool) (s : str) :
  ends_in p s = true -> existsb p s = true.
Proof.
  induction s as [|c s IH]; [discriminate|].
  destruct s as [|x s].
  - simpl. intros ->. reflexivity.
  - intros H. change (existsb p (c :: x :: s))
      with (p c || existsb p (x :: s)).
    rewrite (IH H). apply orb_true_r.
Qed.

(** The last sentence of a text is determined by the text. *)
Lemma last_sentence_of_unique (text a b : str) :
  last_sentence_of text a -> last_sentence_of text b -> a = b.
Proof.
  assert (Hmark_space : forall s, blank s = true ->
                                  existsb sentence_mark s = false).
  { induction s as [|c s IH]; [reflexivity|]. unfold blank in *. simpl.
    intros H. apply andb_true_iff in H. destruct H as [Hc Hs].
    rewrite (IH Hs), orb_false_r.
    unfold sentence_mark.
    destruct (c =? 46)%N eqn:E1;
      [apply N.eqb_eq in E1; subst c; discriminate Hc|].
    destruct (c =? 63)%N eqn:E2;
      [apply N.eqb_eq in E2; subst c; discriminate Hc|].
    destruct (c =? 33)%N eqn:E3;
      [apply N.eqb_eq in E3; subst c; discriminate Hc|].
    reflexivity. }
  assert (Hcore : forall before lead r trail after,
             text = before ++ lead ++ r ++ trail ++ after ->
             blank lead = true -> blank trail = true ->
             is_empty r = false -> padded r = false ->
             existsb sentence_mark r = false ->
             forallb mark_or_space after = true ->
             rstrip_by mark_or_space text = before ++ lead ++ r).
  { intros before lead r trail after E Hlead Htrail Hne Hp Hr Hafter.
    rewrite E.
    replace (before ++ lead ++ r ++ trail ++ after)
      with ((before ++ lead ++ r) ++ (trail ++ after))
      by (rewrite <- !app_assoc; reflexivity).
    apply rstrip_by_app_stop.
    - destruct r as [|x r]; [discriminate Hne|].
      rewrite app_assoc, ends_in_app_cons.
      unfold mark_or_space. rewrite ends_in_orb.
      unfold padded in Hp. apply orb_false_elim in Hp.
      destruct Hp as [_ ->]. rewrite orb_false_r.
      destruct (ends_in sentence_mark (x :: r)) eqn:Hend; [|reflexivity].
      apply ends_in_existsb in Hend. rewrite Hend in Hr. discriminate Hr.
    - rewrite forallb_app, Hafter, andb_true_r.
      apply (forallb_weaken is_space); [|exact Htrail].
      intros c Hc. unfold mark_or_space. rewrite Hc. apply orb_true_r. }
  assert (Hpiece : forall before m before' m',
             before ++ m = before' ++ m' ->
             (before = [] \/ ends_in sentence_mark before = true) ->
             existsb sentence_mark m' = false ->
             exists x, m = x ++ m').
  { intros before m before' m' E Hb Hm'.
    apply app_eq_app in E. destruct E as [x [[E1 E2] | [E1 E2]]].
    - destruct x as [|c x]; [exists []; rewrite E2; reflexivity|].
      exfalso. destruct Hb as [Hb | Hb].
      + rewrite Hb in E1. destruct before'; discriminate E1.
      + rewrite E1, ends_in_app_cons in Hb.
        apply ends_in_existsb in Hb.
        rewrite E2, existsb_app, Hb in Hm'. discriminate Hm'.
    - exists x. exact E2. }
  intros [before [lead [trail [after [E [Hb [Hl [Ht [Hne [Hp [Hr [_ Ha]]]]]]]]]]]]
         [before' [lead' [trail' [after' [E' [Hb' [Hl' [Ht' [Hne' [Hp' [Hr' [_ Ha']]]]]]]]]]]].
  assert (ET : before ++ lead ++ a = before' ++ lead' ++ b).
  { rewrite <- (Hcore _ _ _ _ _ E Hl Ht Hne Hp Hr Ha).
    exact (Hcore _ _ _ _ _ E' Hl' Ht' Hne' Hp' Hr' Ha'). }
  assert (Hm : existsb sentence_mark (lead ++ a) = false)
    by (rewrite existsb_app, (Hmark_space _ Hl), Hr; reflexivity).
  assert (Hm' : existsb sentence_mark (lead' ++ b) = false)
    by (rewrite existsb_app, (Hmark_space _ Hl'), Hr'; reflexivity).
  destruct (Hpiece _ _ _ _ ET Hb Hm') as [x Ex].
  symmetry in ET.
  destruct (Hpiece _ _ _ _ ET Hb' Hm) as [y Ey].
  assert (Exy : x = []).
  { pose proof (f_equal (@length char) Ex) as Lx.
    pose proof (f_equal (@length char) Ey) as Ly.
    rewrite !length_app in Lx, Ly. destruct x; [reflexivity|].
    simpl in Lx. lia. }
  subst x. simpl in Ex.
  unfold padded in Hp, Hp'. apply orb_false_elim in Hp, Hp'.
  rewrite <- (lstrip_by_app_stop is_space lead a Hl (proj1 Hp)).
  rewrite Ex. apply (lstrip_by_app_stop is_space lead' b Hl' (proj1 Hp')).
Qed.

(** ** The calls in full: building the prompt *)

Lemma bind_build_prompt {A} (prompt : Prompt) (m : M A) (w : World) :
  bind (build_prompt prompt) (fun _ => m) w
  = if renders prompt then m w else (Raise PromptError, [], w).
Proof.
  unfold bind, build_prompt.
  destruct (renders prompt); unfold ret, raise; [|reflexivity].
  destruct (m w) as [[r t] w']. reflexivity.
Qed.

Lemma extract_question_with_llm_call_cases (text : str) (w : World) :
  extract_question_with_llm_call text w
  = if (length text <? 20) || renders (CoreQuestionPrompt text)
    then extract_question_with_llm text w
    else (Raise PromptError, [], w).
Proof.
  unfold extract_question_with_llm_call.
  destruct (length text <? 20) eqn:E.
  - unfold extract_question_with_llm. rewrite E. reflexivity.
  - rewrite bind_build_prompt. reflexivity.
Qed.

Lemma extract_core_entities_call_cases (text : str) (w : World) :
  extract_core_entities_call text w
  = if (length text <? 10) || renders (KeywordPrompt text)
    then extract_core_entities text w
    else (Raise PromptError, [], w).
Proof.
  unfold extract_core_entities_call.
  destruct (length text <? 10) eqn:E.
  - unfold extract_core_entities. rewrite E. reflexivity.
  - rewrite bind_build_prompt. reflexivity.
Qed.

Lemma extract_core_querys_call_cases (text : str) (w : World) :
  extract_core_querys_call text w
  = if (length text <? 10) || renders (SubQueryPrompt text)
    then extract_core_querys text w
    else (Raise PromptError, [], w).
Proof.
  unfold extract_core_querys_call.
  destruct (length text <? 10) eqn:E.
  - unfold extract_core_querys. rewrite E. reflexivity.
  - rewrite bind_build_prompt. reflexivity.
Qed.

(** C5, as amended. [extract_question_with_llm] returns a text of fewer
    than 20 characters as it is, and raises to its caller for a longer
    one exactly when building the prompt raises, before the generator is
    asked. When the prompt of a text of at least 20 characters is built,
    the routine asks the generator once and returns a value; and when
    the generator raises, answers with an empty list, or the cleaned
    first output is shorter than 3 characters, that value is the last
    piece of the text between the marks [.], [?] and [!] that is not
    blank, without the whitespace around it, or the text itself when
    nothing but marks and whitespace is in it. *)
Theorem extract_question_with_llm_falls_back (text : str) (w : World) :
  (length text < 20 ->
   extract_question_with_llm_call text w = (Ok text, [], w)) /\
  (20 <= length text ->
   renders (CoreQuestionPrompt text) = false ->
   extract_question_with_llm_call text w = (Raise PromptError, [], w)) /\
  (20 <= length text ->
   renders (CoreQuestionPrompt text) = true ->
   (exists core_q,
       extract_question_with_llm_call text w
       = (Ok core_q, [EGenerate [CoreQuestionPrompt text]],
          snd (generate w [CoreQuestionPrompt text]))) /\
   (fst (generate w [CoreQuestionPrompt text]) = None \/
    fst (generate w [CoreQuestionPrompt text]) = Some [] \/
    (exists first rest,
        fst (generate w [CoreQuestionPrompt text]) = Some (first :: rest) /\
        length (clean_core_question first) < 3) ->
    exists r,
      extract_question_with_llm_call text w
      = (Ok r, [EGenerate [CoreQuestionPrompt text]],
         snd (generate w [CoreQuestionPrompt text])) /\
      r = last (filter (fun s => negb (is_empty s))
                  (map strip (split_each (in_chars (lit ".?!")) text)))
               text /\
      (last_sentence_of text r \/
       forallb mark_or_space text = true /\ r = text))).
Proof.
  rewrite extract_question_with_llm_call_cases.
  split; [|split].
  - intros Hlt. apply Nat.ltb_lt in Hlt. rewrite Hlt. cbn [orb].
    unfold extract_question_with_llm. rewrite Hlt. reflexivity.
  - intros Hlen Hr. apply Nat.ltb_ge in Hlen. rewrite Hlen, Hr.
    reflexivity.
  - intros Hlen Hr. rewrite Hr, orb_true_r.
    apply Nat.ltb_ge in Hlen.
    unfold extract_question_with_llm. rewrite Hlen.
    unfold try_except, bind, call_generate, ret, raise.
    destruct (generate w [CoreQuestionPrompt text]) as [out w1].
    cbn [fst snd].
    assert (Hfall : exists r,
               (Ok (last_sentence text),
                [EGenerate [CoreQuestionPrompt text]] ++ [] ++ [], w1)
               = (Ok r, [EGenerate [CoreQuestionPrompt text]], w1) /\
               r = last (filter (fun s => negb (is_empty s))
                           (map strip
                              (split_each (in_chars (lit ".?!")) text)))
                        text /\
               (last_sentence_of text r \/
                forallb mark_or_space text = true /\ r = text)).
    { exists (last_sentence text). split; [reflexivity|].
      split; [apply last_sentence_unfold | apply last_sentence_spec]. }
    split.
    + destruct out as [[|first rest]|]; cbv beta iota;
        try (eexists; reflexivity).
      destruct (length (clean_core_question first) <? 3); cbv beta iota;
        eexists; reflexivity.
    + intros [-> | [-> | [first [rest [-> Hshort]]]]]; cbv beta iota;
        try exact Hfall.
      apply Nat.ltb_lt in Hshort. rewrite Hshort. exact Hfall.
Qed.

(** ** The calls in full: what a run that completes has done *)










(** X5. Each of the three routines of extract.py returns a text below
    its threshold (20, 10 and 10 characters) as it is, without building
    a prompt or asking the generator. For a longer text the routine
    raises when building its prompt raises, and the generator is not
    asked; when the prompt is built it does not raise, whatever the
    generator does, and asks the generator exactly once. *)
Theorem decomposer_routines_raise_at_prompt_only (text : str) (w : World) :
  (length text < 20 ->
   extract_question_with_llm_call text w = (Ok text, [], w)) /\
  (length text < 10 ->
   extract_core_entities_call text w = (Ok [text], [], w) /\
   extract_core_querys_call text w = (Ok [text], [], w)) /\
  (20 <= length text ->
   if renders (CoreQuestionPrompt text)
   then exists core_q w',
       extract_question_with_llm_call text w
       = (Ok core_q, [EGenerate [CoreQuestionPrompt text]], w')
   else extract_question_with_llm_call text w = (Raise PromptError, [], w)) /\
  (10 <= length text ->
   if renders (KeywordPrompt text)
   then exists keywords w',
       extract_core_entities_call text w
       = (Ok keywords, [EGenerate [KeywordPrompt text]], w')
   else extract_core_entities_call text w = (Raise PromptError, [], w)) /\
  (10 <= length text ->
   if renders (SubQueryPrompt text)
   then exists queries w',
       extract_core_querys_call text w
       = (Ok queries, [EGenerate [SubQueryPrompt text]], w')
   else extract_core_querys_call text w = (Raise PromptError, [], w)).
Proof.
  rewrite extract_question_with_llm_call_cases,
    extract_core_entities_call_cases, extract_core_querys_call_cases.
  destruct (extract_question_with_llm_run text w) as [r1 [w1 H1]].
  destruct (extract_core_entities_run text w) as [r2 [w2 H2]].
  destruct (extract_core_querys_run text w) as [r3 [w3 H3]].
  split; [|split; [|split; [|split]]].
  - intros Hlt. apply Nat.ltb_lt in Hlt. rewrite Hlt. cbn [orb].
    unfold extract_question_with_llm. rewrite Hlt. reflexivity.
  - intros Hlt. apply Nat.ltb_lt in Hlt. rewrite Hlt. cbn [orb].
    unfold extract_core_entities, extract_core_querys. rewrite Hlt.
    split; reflexivity.
  - intros Hlen. apply Nat.ltb_ge in Hlen. rewrite Hlen in H1 |- *.
    cbn [orb]. destruct (renders _); [|reflexivity].
    exists r1, w1. exact H1.
  - intros Hlen. apply Nat.ltb_ge in Hlen. rewrite Hlen in H2 |- *.
    cbn [orb]. destruct (renders _); [|reflexivity].
    exists r2, w2. exact H2.
  - intros Hlen. apply Nat.ltb_ge in Hlen. rewrite Hlen in H3 |- *.
    cbn [orb]. destruct (renders _); [|reflexivity].
    exists r3, w3. exact H3.
Qed.


Lemma bind_ret_tt {B} (k : unit -> M B) (w : World) :
  bind (ret tt) k w = k tt w.
Proof.
  unfold bind, ret. destruct (k tt w) as [[r t] w']. reflexivity.
Qed.

Lemma bind_assoc {A B C} (m : M A) (k : A -> M B) (h : B -> M C)
  (w : World) :
  bind (bind m k) h w = bind m (fun a => bind (k a) h) w.
Proof.
  unfold bind. destruct (m w) as [[[a|e] t1] w1]; [|reflexivity].
  destruct (k a w1) as [[[b|e] t2] w2]; [|reflexivity].
  destruct (h b w2) as [[r t3] w3]. rewrite app_assoc. reflexivity.
Qed.

Lemma bind_ext {A B} (m : M A) (k k' : A -> M B) (w : World) :
  (forall a w1, k a w1 = k' a w1) -> bind m k w = bind m k' w.
Proof.
  intros H. unfold bind. destruct (m w) as [[[a|e] t1] w1]; [|reflexivity].
  rewrite H. reflexivity.
Qed.

Lemma main_loop_call_app (before : list raw_entry) :
  forall (i : nat) (rest : list raw_entry) (w : World),
    main_loop_call i (before ++ rest) w
    = bind (main_loop_call i before)
           (fun _ => main_loop_call (length before + i) rest) w.
Proof.
  induction before as [|q before IH]; intros i rest w.
  - cbn [app length main_loop_call]. rewrite bind_ret_tt. reflexivity.
  - assert (Hnext : forall w1,
               main_loop_call (S i) (before ++ rest) w1
               = bind (main_loop_call (S i) before)
                      (fun _ => main_loop_call (length (q :: before) + i)
                                               rest) w1).
    { intros w1. rewrite IH. cbn [length].
      rewrite Nat.add_succ_r. reflexivity. }
    destruct q as [|id [[| b | z | text]|] expected];
      cbn [app main_loop_call]; try apply Hnext; try reflexivity.
    rewrite bind_assoc. apply bind_ext. intros _ w1. apply Hnext.
Qed.

(** X22. An entry whose [input_field] is present and is not a string is
    not skipped: when the entries before it have been processed, the run
    raises [TypeError] at it, before any request, search or record for
    it, and the entries behind it are never reached. *)
Theorem main_run_type_error (before rest : list raw_entry)
  (id expected : option json_scalar) (field : json_scalar)
  (w w1 : World) (events : list Event) :
  (forall text, field <> JStr text) ->
  main_call before w = (Ok tt, events, w1) ->
  main_call (before ++ RawObject id (Some field) expected :: rest) w
  = (Raise TypeError, events, w1).
Proof.
  intros Hfield Hrun. unfold main_call in *.
  rewrite main_loop_call_app. unfold bind at 1. rewrite Hrun.
  cbn [main_loop_call].
  destruct field as [| b | z | text];
    try (unfold raise; rewrite app_nil_r; reflexivity).
  exfalso. exact (Hfield text eq_refl).
Qed.

End Pipeline.

(** * Worked examples *)

(** C7 at the input [[{"input_field": "Who wrote the novel Dracula?"}]]:
    the single record is written as one chunk with four line feeds, so it
    takes four lines of the output file, from the opening brace to the
    closing one, not one. *)
Theorem main_record_spans_four_lines :
  let events :=
    snd (fst (main ascii_only ascii_only (fun s => s) scripted_generate
                   empty_web_search
                   [Object None (Some dracula_question) None]
                   dracula_script)) in
  let chunk :=
    json_dumps_result_item (JStr (lit "q_0")) (lit "Bram Stoker")
    ++ [10%N] in
  writes events = [chunk] /\
  line_feeds chunk = 4 /\
  length (split_each (N.eqb 10) chunk) = 5 /\
  nth_error (split_each (N.eqb 10) chunk) 0 = Some (lit "{") /\
  nth_error (split_each (N.eqb 10) chunk) 3 = Some (lit "}").
Proof.
  cbv zeta. repeat split; vm_compute; reflexivity.
Qed.


(** C10 on the Dracula question with the keyword output [a b c]. *)
Lemma extract_core_entities_short_tokens_witness :
  extract_core_entities ascii_only ascii_only scripted_generate
                        dracula_question [Some [lit "a b c"]]
  = (Ok [], [EGenerate [KeywordPrompt dracula_question]], []).
Proof.
  refine (proj1 (extract_core_entities_short_tokens
                   ascii_only ascii_only _ scripted_generate
                   dracula_question (lit "a b c") []
                   [Some [lit "a b c"]] [] _ _ _)).
  - vm_compute. lia.
  - reflexivity.
  - vm_compute. repeat constructor.
Defined.

(** X3 on [The answer is Paris]: the cleaned answer keeps [answer is]. *)
Lemma strip_bad_start_the_answer_is_witness :
  Clean.strip_bad_start Clean.bad_starts (lit "The answer is Paris")
  = lit "answer is Paris" /\
  Clean.clean_answer_aggressive (lit "The answer is Paris")
  = Ok (lit "answer is Paris").
Proof.
  split; [|reflexivity].
  exact (strip_bad_start_the_answer_is (lit "The answer is Paris") eq_refl).
Defined.

(** * GoogleSearchClient.py *)

Lemma contains_empty (s : str) : contains [] s = true.
Proof. rewrite contains_unfold. destruct s; reflexivity. Qed.

Lemma enrich_content_keeps (item : Item) (content : str) :
  let enriched :=
    match enrich_content item content with
    | Ok c => c
    | Raise _ => content
    end in
  startswith enriched content = true /\
  (forall m rest desc,
      pagemap item = Some (Some (m :: rest)) ->
      og_description m = Some (MetaStr desc) \/
      (meta_truthy (og_description m) = false /\
       description m = Some (MetaStr desc)) ->
      contains desc enriched = true) /\
  (pagemap item = Some (Some []) -> enriched = content).
Proof.
  cbv zeta.
  assert (Hself : startswith content content = true).
  { pose proof (startswith_app content []) as H.
    rewrite app_nil_r in H. exact H. }
  assert (Hcase : forall desc,
             let r :=
               match
                 (if negb (is_empty desc) && negb (contains desc content)
                  then Ok (content ++ lit " " ++ desc) else Ok content)
               with
               | Ok c => c
               | Raise _ => content
               end in
             startswith r content = true /\ contains desc r = true).
  { intros desc. cbv zeta.
    destruct desc as [|x desc'].
    - simpl. split; [exact Hself | apply contains_empty].
    - change (is_empty (x :: desc')) with false. simpl negb.
      rewrite andb_true_l.
      destruct (contains (x :: desc') content) eqn:E; simpl negb; cbv iota.
      + split; [exact Hself | exact E].
      + split; [apply startswith_app|].
        replace (content ++ lit " " ++ x :: desc')
          with ((content ++ lit " ") ++ x :: desc')
          by (rewrite <- app_assoc; reflexivity).
        apply contains_suffix. }
  unfold enrich_content.
  destruct (pagemap item) as [[[|m rest]|]|]; unfold getitem; simpl.
  - split; [exact Hself|].
    split; [intros ? ? ? H; discriminate H | reflexivity].
  - split; [|split; [|discriminate]].
    + destruct (py_or (og_description m) (description m)) as [[desc|t]|];
        try exact Hself.
      exact (proj1 (Hcase desc)).
    + intros m' rest' desc [= <- <-] Hdesc.
      assert (E : py_or (og_description m) (description m)
                  = Some (MetaStr desc) \/ desc = []).
      { unfold py_or. destruct Hdesc as [Hog | [Hf Hd]].
        - rewrite Hog. simpl. destruct desc; simpl; auto.
        - rewrite Hf. auto. }
      destruct E as [-> | ->]; [|apply contains_empty].
      exact (proj2 (Hcase desc)).
  - split; [exact Hself|].
    split; [intros ? ? ? H; discriminate H | discriminate].
  - split; [exact Hself|].
    split; [intros ? ? ? H; discriminate H | discriminate].
Qed.

(** X19. For a response with items, [web_search] returns one reference
    per item, in order, with the link and the title of the item; its
    content starts with the snippet and contains the description of the
    first metatags ([og:description], or [description] when the former
    is missing or empty) when that is a string; with an empty metatags
    list the content is the snippet alone. *)
Theorem google_web_search_references
  (W : Type) (http_get : W -> SearchParams -> option (option (list Item)) * W)
  (w w1 : W) (query : str) (top_k : nat) (items : list Item) :
  http_get w (mkSearchParams query (Nat.min top_k 10) (lit "off"))
  = (Some (Some items), w1) ->
  exists references,
    google_web_search http_get w query top_k = (references, w1) /\
    Forall2
      (fun item ref =>
         url ref = link item /\
         title ref = item_title item /\
         startswith (content ref) (snippet_text item) = true /\
         (forall m rest desc,
             pagemap item = Some (Some (m :: rest)) ->
             og_description m = Some (MetaStr desc) \/
             (meta_truthy (og_description m) = false /\
              description m = Some (MetaStr desc)) ->
             contains desc (content ref) = true) /\
         (pagemap item = Some (Some []) ->
          content ref = snippet_text item))
      items references.
Proof.
  intros Hhttp. exists (map reference_of_item items).
  unfold google_web_search. rewrite Hhttp. split; [reflexivity|].
  clear Hhttp.
  induction items as [|item items' IH]; simpl; constructor; [|exact IH].
  split; [reflexivity|]. split; [reflexivity|].
  exact (enrich_content_keeps item (snippet_text item)).
Qed.

(** * Worked examples for the further properties *)

(** X4 on the Dracula question with the output [Dracula novel author]. *)
Lemma extract_core_entities_generated_shape_witness :
  exists keywords,
    extract_core_entities ascii_only ascii_only scripted_generate
                          dracula_question
                          [Some [lit "Dracula novel author"]]
    = (Ok keywords, [EGenerate [KeywordPrompt dracula_question]], []) /\
    length keywords <= 10 /\
    Forall (fun e => 2 <= length e /\ existsb comma_or_space e = false)
           keywords.
Proof.
  apply (extract_core_entities_generated_shape
           ascii_only ascii_only _ scripted_generate dracula_question
           (lit "Dracula novel author") []).
  - vm_compute. lia.
  - reflexivity.
Defined.

(** X6 on the Dracula question with a generator that returns no
    output. *)
Lemma extract_core_querys_fallback_witness :
  extract_core_querys scripted_generate dracula_question [Some []]
  = (Ok [dracula_question],
     [EGenerate [SubQueryPrompt dracula_question]], []).
Proof.
  apply (extract_core_querys_fallback _ scripted_generate).
  - vm_compute. lia.
  - right. reflexivity.
Defined.

(** X10 on two short documents. *)
Lemma extract_relevant_sentences_short_documents_witness :
  extract_relevant_sentences ascii_only ascii_only (fun s => s)
    [lit "Paris"; lit "Rome"] paris_question 2
  = lit "Paris".
Proof.
  apply extract_relevant_sentences_short_documents.
  repeat constructor; vm_compute; lia.
Defined.

(** X11 on the Paris document with a question made of digits and signs,
    and a cap of 1. *)
Lemma extract_relevant_sentences_unscored_witness :
  extract_relevant_sentences ascii_only ascii_only (fun s => s)
    [paris_document] (lit "1 + 1 = ?") 1
  = join [10%N] (firstn 2 (collect_sentences [paris_document])).
Proof.
  apply extract_relevant_sentences_unscored.
  - reflexivity.
  - left. reflexivity.
Defined.

(** X14 with a first answer of one letter and a retry that raises: the
    error marker is persisted. *)
Lemma answer_stage_failures_witness :
  answer_stage scripted_generate [] (lit "Who wrote it")
               [Some [lit "x"]; None]
  = (Ok error_marker,
     [EGenerate [AnswerPrompt [] (lit "Who wrote it")];
      EGenerate [ChatMessage (lit "user")
                             (simple_prompt [] (lit "Who wrote it"))]],
     []).
Proof.
  refine (proj1 (proj2 (proj2 (answer_stage_failures
                                 _ scripted_generate [] (lit "Who wrote it")
                                 [Some [lit "x"]; None] [None]))
                       (lit "x") (lit "x") [] [] _ _ _) _);
    reflexivity.
Defined.

(** X16 on the Dracula question. *)
Lemma search_query_splits_into_keywords_witness :
  exists d,
    decompose_stage ascii_only ascii_only scripted_generate
                    dracula_question
                    [Some [lit "Who wrote it"];
                     Some [lit "Dracula novel author"]]
    = (Ok d,
       [EGenerate [CoreQuestionPrompt dracula_question]]
       ++ [EGenerate [KeywordPrompt dracula_question]], []) /\
    entities d = parse_entities (lit "Dracula novel author") /\
    split_each (N.eqb 32) (search_query d) = entities d.
Proof.
  apply (search_query_splits_into_keywords
           ascii_only ascii_only _ scripted_generate dracula_question
           (lit "Dracula novel author") []
           [Some [lit "Who wrote it"]; Some [lit "Dracula novel author"]]
           [Some [lit "Dracula novel author"]] []
           (lit "Who wrote it")).
  - vm_compute. lia.
  - reflexivity.
  - reflexivity.
  - vm_compute. discriminate.
Defined.


(** X19 on a response with one item, whose description is appended to
    its snippet. *)
Lemma google_web_search_references_witness :
  exists references,
    google_web_search one_item_http tt dracula_question 10
    = (references, tt) /\
    length references = 1 /\
    map content references = [lit "Dracula is a novel. By Bram Stoker"].
Proof.
  destruct (google_web_search_references
              unit one_item_http tt tt dracula_question 10 [stoker_item]
              eq_refl)
    as [references [Hrun Hall]].
  exists references. split; [exact Hrun|].
  assert (E : references = [reference_of_item stoker_item]).
  { change (google_web_search one_item_http tt dracula_question 10)
      with ([reference_of_item stoker_item], tt) in Hrun.
    congruence. }
  rewrite E. split; reflexivity.
Defined.

(** C3 on an answer that holds the leakage word [information] between
    other words: the retry is issued and its cleaned output adopted. *)
Lemma answer_stage_retries_once_witness :
  Clean.clean_answer_aggressive (strip (lit " No information found "))
  = Ok (lit "No " ++ lit "information" ++ lit " found") /\
  needs_retry (lit "No information found") = true /\
  answer_stage scripted_generate (lit "Dracula") (lit "Who wrote it")
               [Some [lit " No information found "];
                Some [lit "Bram Stoker"]]
  = (Ok (lit "Bram Stoker"),
     [EGenerate [AnswerPrompt (lit "Dracula") (lit "Who wrote it")];
      EGenerate [ChatMessage (lit "user")
                   (simple_prompt (lit "Dracula") (lit "Who wrote it"))]],
     []).
Proof.
  destruct (answer_stage_retries_once
              _ scripted_generate (lit "Dracula") (lit "Who wrote it")
              (lit " No information found ") []
              [Some [lit " No information found "];
               Some [lit "Bram Stoker"]]
              [Some [lit "Bram Stoker"]] eq_refl)
    as [cleaned [Hc [Hiff [_ [_ Hretry]]]]].
  assert (E : Ok (lit "No information found") = Ok cleaned) by exact Hc.
  injection E as <-.
  assert (Hneeds : needs_retry (lit "No information found") = true).
  { apply (proj2 Hiff). right.
    exists (lit "information"), (lit "No "), (lit " found").
    split; [|reflexivity]. right. right. left. reflexivity. }
  split; [reflexivity|]. split; [exact Hneeds|].
  destruct (Hretry Hneeds (lit "Bram Stoker") [] [] eq_refl)
    as [final [Hf Hrun]].
  assert (E : Ok (lit "Bram Stoker") = Ok final) by exact Hf.
  injection E as <-. exact Hrun.
Defined.


(** X2 on an answer of which the stages leave nothing, so that it comes
    back with its leading space, and on one of which they leave a
    word. *)
Lemma clean_answer_trimmed_or_raw_witness :
  transformed (lit " ,") = Ok [] /\
  Clean.clean_answer_aggressive (lit " ,") = Ok (lit " ,") /\
  padded (lit " ,") = true /\
  exists a, transformed (lit " Paris. ") = Ok a /\ 
            Clean.clean_answer_aggressive (lit " Paris. ") = Ok a /\
            padded a = false /\ is_empty a = false.
Proof.
  destruct (clean_answer_trimmed_or_raw (lit " ,"))
    as [a [r [Ha [Hr [_ [[He _]|[_ E]]]]]]].
  - assert (E : Ok [] = Ok a) by exact Ha. injection E as <-.
    discriminate He.
  - assert (E0 : Ok [] = Ok a) by exact Ha. injection E0 as <-.
    split; [reflexivity|]. split; [|split; [reflexivity|]].
    + rewrite Hr, E. reflexivity.
    + destruct (clean_answer_trimmed_or_raw (lit " Paris. "))
        as [a' [r' [Ha' [Hr' [Hp [[He' E']|[He' _]]]]]]].
      * exists a'. subst r'. repeat split; assumption.
      * assert (E1 : Ok (lit "Paris") = Ok a') by exact Ha'.
        injection E1 as <-. discriminate He'.
Defined.

(** X12 on three documents that share 4, 2 and 5 words with the
    question: with a cap of 2 the third comes first, the first second,
    and the second is left out. *)
Lemma extract_relevant_sentences_ranking_witness :
  let score :=
    overlap_score ascii_only ascii_only (fun s => s)
                  (word_set ascii_only ascii_only (fun s => s)
                            paris_question) in
  let candidates := firstn 50 (collect_sentences capital_documents) in
  candidates = capital_documents /\
  map score capital_documents = [4; 2; 5] /\
  extract_relevant_sentences ascii_only ascii_only (fun s => s)
    capital_documents paris_question 2
  = join [10%N] [capital_document; rome_document] /\
  exists chosen,
    extract_relevant_sentences ascii_only ascii_only (fun s => s)
      capital_documents paris_question 2
    = join [10%N] chosen /\
    chosen <> [] /\
    (Z.of_nat (length chosen) <= 2)%Z /\
    incl chosen candidates /\
    Forall (fun s => 0 < score s) chosen /\
    StronglySorted (fun a b => score b <= score a) chosen /\
    (forall d s,
        In d candidates -> ~ In d chosen -> In s chosen ->
        score d <= score s).
Proof.
  intros score candidates.
  split; [vm_compute; reflexivity|]. split; [vm_compute; reflexivity|].
  split; [vm_compute; reflexivity|].
  apply (extract_relevant_sentences_ranking
           ascii_only ascii_only (fun s => s)
           capital_documents paris_question 2 capital_document).
  - lia.
  - vm_compute. right. right. left. reflexivity.
  - vm_compute. lia.
Defined.

(** X20 on three documents that share 2 words each with the question:
    with a cap of 2 the first two are returned, in their order. *)
Lemma extract_relevant_sentences_ties_witness :
  map (overlap_score ascii_only ascii_only (fun s => s)
         (word_set ascii_only ascii_only (fun s => s) name_question))
      capital_documents
  = [2; 2; 2] /\
  firstn (Z.to_nat 2) (firstn 50 (collect_sentences capital_documents))
  = [rome_document; tower_document] /\
  extract_relevant_sentences ascii_only ascii_only (fun s => s)
    capital_documents name_question 2
  = join [10%N]
      (firstn (Z.to_nat 2)
              (firstn 50 (collect_sentences capital_documents))).
Proof.
  split; [vm_compute; reflexivity|]. split; [vm_compute; reflexivity|].
  apply (extract_relevant_sentences_ties
           ascii_only ascii_only (fun s => s)
           capital_documents name_question 2 2).
  - lia.
  - lia.
  - vm_compute. reflexivity.
  - vm_compute firstn.
    repeat (apply Forall_cons; [vm_compute; reflexivity|]).
    apply Forall_nil.
Defined.


(** C5 as stated fails: with a template engine that refuses an argument
    of more than 4096 characters, on a text of 5800 characters and a
    generator that would raise, the routine raises to its caller instead
    of returning the last sentence, and the generator is never asked. *)
Lemma extract_question_with_llm_raises :
  20 <= length long_question /\
  fst (scripted_generate [None] [CoreQuestionPrompt long_question]) = None /\
  extract_question_with_llm_call scripted_generate (renders_up_to 4096)
                                 long_question [None]
  = (Raise PromptError, [], [None]).
Proof.
  split; [vm_compute; lia|]. split; [reflexivity|].
  vm_compute. reflexivity.
Qed.

(** C5 on a question behind a sentence, with a generator that raises:
    the question comes back without the spaces around it. *)
Lemma extract_question_with_llm_falls_back_witness :
  extract_question_with_llm_call scripted_generate always_renders
                                 padded_question [None]
  = (Ok (lit "Who wrote the novel"),
     [EGenerate [CoreQuestionPrompt padded_question]], []) /\
  last_sentence_of padded_question (lit "Who wrote the novel").
Proof.
  assert (Hlen : 20 <= length padded_question) by (vm_compute; lia).
  destruct (proj2 (proj2 (extract_question_with_llm_falls_back
                            _ scripted_generate always_renders
                            padded_question [None]))
                  Hlen eq_refl) as [_ Hfall].
  destruct (Hfall (or_introl eq_refl)) as [r [Hrun [Er Hr]]].
  assert (E : r = lit "Who wrote the novel")
    by (rewrite Er; vm_compute; reflexivity).
  subst r. split; [exact Hrun|].
  destruct Hr as [Hr | [Hall _]]; [exact Hr|].
  vm_compute in Hall. discriminate Hall.
Defined.

(** X5 on a text below every threshold with a template engine that
    would refuse it, on the Dracula question with a generator that
    raises, and on a text that the template engine refuses. *)
Lemma decomposer_routines_raise_at_prompt_only_witness :
  (extract_question_with_llm_call scripted_generate (renders_up_to 0)
                                  (lit "Who?") [None]
   = (Ok (lit "Who?"), [], [None]) /\
   extract_core_entities_call ascii_only ascii_only scripted_generate
                              (renders_up_to 0) (lit "Who?") [None]
   = (Ok [lit "Who?"], [], [None]) /\
   extract_core_querys_call scripted_generate (renders_up_to 0)
                            (lit "Who?") [None]
   = (Ok [lit "Who?"], [], [None])) /\
  ((exists core_q w',
       extract_question_with_llm_call scripted_generate always_renders
                                      dracula_question [None]
       = (Ok core_q, [EGenerate [CoreQuestionPrompt dracula_question]], w')) /\
   (exists keywords w',
       extract_core_entities_call ascii_only ascii_only scripted_generate
                                  always_renders dracula_question [None]
       = (Ok keywords, [EGenerate [KeywordPrompt dracula_question]], w')) /\
   (exists queries w',
       extract_core_querys_call scripted_generate always_renders
                                dracula_question [None]
       = (Ok queries, [EGenerate [SubQueryPrompt dracula_question]], w'))) /\
  (extract_question_with_llm_call scripted_generate (renders_up_to 4096)
                                  long_question [None]
   = (Raise PromptError, [], [None]) /\
   extract_core_entities_call ascii_only ascii_only scripted_generate
                              (renders_up_to 4096) long_question [None]
   = (Raise PromptError, [], [None]) /\
   extract_core_querys_call scripted_generate (renders_up_to 4096)
                            long_question [None]
   = (Raise PromptError, [], [None])).
Proof.
  assert (Hshort20 : length (lit "Who?") < 20) by (vm_compute; lia).
  assert (Hshort10 : length (lit "Who?") < 10) by (vm_compute; lia).
  assert (Hd20 : 20 <= length dracula_question) by (vm_compute; lia).
  assert (Hd10 : 10 <= length dracula_question) by (vm_compute; lia).
  assert (Hl20 : 20 <= length long_question) by (vm_compute; lia).
  assert (Hl10 : 10 <= length long_question) by (vm_compute; lia).
  destruct (decomposer_routines_raise_at_prompt_only
              ascii_only ascii_only _ scripted_generate (renders_up_to 0)
              (lit "Who?") [None]) as [S1 [S2 _]].
  destruct (decomposer_routines_raise_at_prompt_only
              ascii_only ascii_only _ scripted_generate always_renders
              dracula_question [None]) as [_ [_ [D1 [D2 D3]]]].
  destruct (decomposer_routines_raise_at_prompt_only
              ascii_only ascii_only _ scripted_generate (renders_up_to 4096)
              long_question [None]) as [_ [_ [L1 [L2 L3]]]].
  split; [split; [exact (S1 Hshort20) | exact (S2 Hshort10)]|].
  split; [split; [exact (D1 Hd20) | split; [exact (D2 Hd10) | exact (D3 Hd10)]]|].
  specialize (L1 Hl20). specialize (L2 Hl10). specialize (L3 Hl10).
  assert (E1 : renders_up_to 4096 (CoreQuestionPrompt long_question) = false)
    by (vm_compute; reflexivity).
  assert (E2 : renders_up_to 4096 (KeywordPrompt long_question) = false)
    by (vm_compute; reflexivity).
  assert (E3 : renders_up_to 4096 (SubQueryPrompt long_question) = false)
    by (vm_compute; reflexivity).
  rewrite E1 in L1. rewrite E2 in L2. rewrite E3 in L3.
  split; [exact L1 | split; [exact L2 | exact L3]].
Defined.


(** X22 on an array whose second element has [null] as [input_field]:
    the first question is answered and recorded, then the run raises. *)
Lemma main_run_type_error_witness :
  exists events,
    main_call ascii_only ascii_only (fun s => s) scripted_generate
              empty_web_search always_renders
              [RawObject None (Some (JStr (lit "Who?"))) None]
              [Some [lit "Nobody"]]
    = (Ok tt, events, []) /\
    length (writes events) = 1 /\
    main_call ascii_only ascii_only (fun s => s) scripted_generate
              empty_web_search always_renders
              ([RawObject None (Some (JStr (lit "Who?"))) None] ++
               RawObject (Some (JInt 2)) (Some JNull) None ::
               [RawObject None (Some (JStr dracula_question)) None])
              [Some [lit "Nobody"]]
    = (Raise TypeError, events, []).
Proof.
  assert (Hrun : exists events,
             main_call ascii_only ascii_only (fun s => s) scripted_generate
                       empty_web_search always_renders
                       [RawObject None (Some (JStr (lit "Who?"))) None]
                       [Some [lit "Nobody"]]
             = (Ok tt, events, []) /\ length (writes events) = 1).
  { eexists. split; vm_compute; reflexivity. }
  destruct Hrun as [events [Hrun Hwrites]].
  exists events. split; [exact Hrun|]. split; [exact Hwrites|].
  apply main_run_type_error; [|exact Hrun].
  intros text. discriminate.
Defined.
